(** * CVXPY analysis core: leaves, [max_elemwise], certification utilities

    A shallow embedding of

      - [cvxpy/expressions/leaf.py]           ([Leaf]),
      - [cvxpy/atoms/elementwise/max_elemwise.py] ([max_elemwise]),
      - [cvxpy/utilities/linalg.py]           ([orth],
        [onb_for_orthogonal_complement], [gershgorin_psd_check]),

    together with the properties of these functions.

    Numbers.  A NumPy float is modelled by [num]: an exact rational when it
    is finite, or one of the three IEEE special values.  Comparisons and the
    arithmetic of the special values follow IEEE 754 as NumPy exposes it
    (every comparison with [NaN] is false, [inf - inf] is [NaN], ...);
    rounding of finite results and overflow are not modelled. *)

From Stdlib Require Import Bool List ZArith QArith Qround Qabs Qfield String Lia Lqa.
Import ListNotations.

Set Implicit Arguments.
Close Scope Q_scope.

(* ================================================================== *)
(** ** Numbers *)

Module Num.

Local Open Scope Q_scope.

Inductive num : Type :=
| Fin (q : Q)
| PInf
| NInf
| NaN.

Definition zero : num := Fin 0.
Definition one : num := Fin 1.

Definition Qltb (a b : Q) : bool := negb (Qle_bool b a).

(** sign of a rational: [Lt], [Eq] or [Gt] with respect to 0 *)
Definition Qsign (q : Q) : comparison := Qcompare q 0.

Definition isnan (x : num) : bool :=
  match x with NaN => true | _ => false end.


Definition opp (x : num) : num :=
  match x with
  | Fin q => Fin (- q)
  | PInf => NInf
  | NInf => PInf
  | NaN => NaN
  end.

Definition add (x y : num) : num :=
  match x, y with
  | NaN, _ | _, NaN => NaN
  | Fin a, Fin b => Fin (a + b)
  | PInf, NInf | NInf, PInf => NaN
  | PInf, _ | _, PInf => PInf
  | NInf, _ | _, NInf => NInf
  end.

Definition sub (x y : num) : num := add x (opp y).

(** an infinity of the sign of [PInf] times the sign [c] *)
Definition signed_inf (c : comparison) : num :=
  match c with Gt => PInf | Lt => NInf | Eq => NaN end.

Definition mul (x y : num) : num :=
  match x, y with
  | NaN, _ | _, NaN => NaN
  | Fin a, Fin b => Fin (a * b)
  | PInf, Fin b | Fin b, PInf => signed_inf (Qsign b)
  | NInf, Fin b | Fin b, NInf => signed_inf (CompOpp (Qsign b))
  | PInf, PInf | NInf, NInf => PInf
  | PInf, NInf | NInf, PInf => NInf
  end.

(** [x / 2.] *)
Definition half (x : num) : num :=
  match x with
  | Fin a => Fin (a / 2)
  | _ => x
  end.

Definition abs (x : num) : num :=
  match x with
  | Fin q => Fin (Qabs q)
  | PInf | NInf => PInf
  | NaN => NaN
  end.

(** IEEE comparisons: false as soon as one side is [NaN]. *)
Definition ltb (x y : num) : bool :=
  match x, y with
  | NaN, _ | _, NaN => false
  | Fin a, Fin b => Qltb a b
  | NInf, NInf | PInf, _ | _, NInf => false
  | NInf, _ | _, PInf => true
  end.

Definition leb (x y : num) : bool :=
  match x, y with
  | NaN, _ | _, NaN => false
  | Fin a, Fin b => Qle_bool a b
  | NInf, _ | _, PInf => true
  | PInf, _ | _, NInf => false
  end.

Definition eqb (x y : num) : bool :=
  match x, y with
  | Fin a, Fin b => Qeq_bool a b
  | PInf, PInf | NInf, NInf => true
  | _, _ => false
  end.

Definition geb (x y : num) : bool := leb y x.
Definition gtb (x y : num) : bool := ltb y x.

(** [np.minimum] and [np.maximum] propagate [NaN]. *)
Definition minimum (x y : num) : num :=
  match x, y with
  | NaN, _ | _, NaN => NaN
  | _, _ => if ltb y x then y else x
  end.

Definition maximum (x y : num) : num :=
  match x, y with
  | NaN, _ | _, NaN => NaN
  | _, _ => if ltb x y then y else x
  end.

(** [np.clip(x, lo, hi)] is [minimum(maximum(x, lo), hi)]. *)
Definition clip (x lo hi : num) : num := minimum (maximum x lo) hi.

(** round half to even, the rounding of [np.round] *)
Definition Qround_half_even (q : Q) : Z :=
  let f := Qfloor q in
  match Qcompare (q - inject_Z f) (1 # 2) with
  | Lt => f
  | Gt => (f + 1)%Z
  | Eq => if Z.even f then f else (f + 1)%Z
  end.

Definition round (x : num) : num :=
  match x with
  | Fin q => Fin (inject_Z (Qround_half_even q))
  | _ => x
  end.

(** a Python [bool] used as a number *)
Definition of_bool (b : bool) : num := if b then one else zero.

End Num.
Import Num.

(* ================================================================== *)
(** ** [max_elemwise]: sign rule and DCP contract *)

Module MaxElemwise.

(** The part of the expression interface that [sign_from_args] calls on
    its arguments. *)
Class Expression (E : Type) : Type := {
  is_positive : E -> bool;
  is_negative : E -> bool
}.

(** The four signs named in the comment of [sign_from_args]; an
    expression whose sign is known is an instance of the interface. *)
Inductive sign : Type := POSITIVE | NEGATIVE | ZERO | UNKNOWN.

#[export] Instance sign_Expression : Expression sign := {
  is_positive s := match s with POSITIVE | ZERO => true | _ => false end;
  is_negative s := match s with NEGATIVE | ZERO => true | _ => false end
}.

Section Atom.
Context {E : Type} `{Expression E}.

Record max_elemwise : Type := { args : list E }.

(** [__init__(self, arg1, arg2, *args)]: requires at least 2 arguments. *)
Definition init (arg1 arg2 : E) (rest : list E) : max_elemwise :=
  {| args := arg1 :: arg2 :: rest |}.

(** [any([...])] and [all([...])] of Python on a list of booleans *)
Definition any (l : list bool) : bool := existsb (fun b => b) l.
Definition all (l : list bool) : bool := forallb (fun b => b) l.

Definition sign_from_args (self : max_elemwise) : bool * bool :=
  let is_pos := any (map is_positive (args self)) in
  let is_neg := all (map is_negative (args self)) in
  (is_pos, is_neg).

Definition is_atom_convex (self : max_elemwise) : bool := true.
Definition is_atom_concave (self : max_elemwise) : bool := false.
Definition is_incr (self : max_elemwise) (idx : nat) : bool := true.
Definition is_decr (self : max_elemwise) (idx : nat) : bool := false.

End Atom.

Arguments max_elemwise E : clear implicits.

End MaxElemwise.

(* ================================================================== *)
(** ** [max_elemwise.graph_implementation] *)

Module LinUtils.

(** The size of a primitive, as the tuple the source passes around. *)
Definition size_t : Type := list nat.

Definition size_eqb (a b : size_t) : bool :=
  if list_eq_dec Nat.eq_dec a b then true else false.

(** Modelled from the spec: the canonical primitive ("LinOp") of
    [cvxpy.lin_ops], whose module is not part of the sources at hand:
    an affine operator node, here a variable reference, a
    promotion/broadcast, or any other affine operator over
    sub-primitives. *)
#[warnings="-register-all"]
Inductive LinOp : Type :=
| VARIABLE (size : size_t) (var_id : nat)
| PROMOTE (size : size_t) (arg : LinOp)
| AFFINE (name : string) (size : size_t) (args : list LinOp).

Definition size (op : LinOp) : size_t :=
  match op with
  | VARIABLE sz _ | PROMOTE sz _ | AFFINE _ sz _ => sz
  end.

(** the identifiers of the variables a primitive refers to *)
Fixpoint var_ids (op : LinOp) : list nat :=
  match op with
  | VARIABLE _ i => [i]
  | PROMOTE _ a => var_ids a
  | AFFINE _ _ l => flat_map var_ids l
  end.

(** Modelled from the spec: an inequality constraint [lhs <= rhs] between
    two primitives, as [lu.create_leq] of the missing [lin_utils]
    builds it. *)
Record LinLeqConstr : Type := { lhs : LinOp; rhs : LinOp }.

(** *** The supply of fresh identifiers

    [lu.create_var] draws a new identifier from a global counter; the
    counter is the state of a small state monad. *)
Definition M (A : Type) : Type := nat -> A * nat.

Definition ret {A} (a : A) : M A := fun s => (a, s).

Definition bind {A B} (m : M A) (k : A -> M B) : M B :=
  fun s => let (a, s') := m s in k a s'.

Notation "x <- m ;; k" := (bind m (fun x => k))
  (at level 61, m at next level, right associativity).

(** Modelled from the spec: [lu.get_id()] of the missing [lin_utils], the
    next identifier of the supply. *)
Definition get_id : M nat := fun s => (s, S s).

(** Modelled from the spec: [lu.create_var(size)] of the missing
    [lin_utils], "one fresh auxiliary variable of the atom's output
    shape". *)
Definition create_var (sz : size_t) : M LinOp :=
  i <- get_id ;; ret (VARIABLE sz i).

(** Modelled from the spec: [lu.create_leq(lh, rh)] of the missing
    [lin_utils], "emit the constraint [a_i <= t]". *)
Definition create_leq (lh rh : LinOp) : LinLeqConstr :=
  {| lhs := lh; rhs := rh |}.

(** Modelled from the spec: [Elementwise._promote(arg, size)] of the
    missing [elementwise] module, "broadcast it to the output shape if
    needed". *)
Definition _promote (arg : LinOp) (sz : size_t) : LinOp :=
  if size_eqb (size arg) sz then arg else PROMOTE sz arg.

(** [max_elemwise.graph_implementation(arg_objs, size, data=None)]; the
    [for] loop appends one constraint per argument. *)
Definition graph_implementation (arg_objs : list LinOp) (sz : size_t)
  : M (LinOp * list LinLeqConstr) :=
  t <- create_var sz ;;
  let constraints :=
    fold_left (fun constraints obj =>
                 let obj := _promote obj sz in
                 constraints ++ [create_leq obj t])
              arg_objs [] in
  ret (t, constraints).

(** every variable of the argument is older than the counter [s] *)
Definition older_than (s : nat) (op : LinOp) : Prop :=
  Forall (fun i => i < s) (var_ids op).

End LinUtils.

(* ================================================================== *)
(** ** Arrays *)

Module NumPy.

(** *** Complex entries *)

Record cnum : Type := C { re : num; im : num }.

Definition of_real (x : num) : cnum := C x zero.

Definition cadd (x y : cnum) : cnum := C (add (re x) (re y)) (add (im x) (im y)).
Definition csub (x y : cnum) : cnum := C (sub (re x) (re y)) (sub (im x) (im y)).

Definition cmul (x y : cnum) : cnum :=
  C (sub (mul (re x) (re y)) (mul (im x) (im y)))
    (add (mul (re x) (im y)) (mul (im x) (re y))).

Definition conj (x : cnum) : cnum := C (re x) (opp (im x)).

(** the imaginary unit [1j] *)
Definition j1 : cnum := C zero one.


(** [|z| <= t], decided on the squares: the modulus of a complex number
    is only ever compared with a tolerance. *)
Definition cabs_le (z : cnum) (t : Q) : bool :=
  match re z, im z with
  | Fin a, Fin b => (Qle_bool 0 t && Qle_bool (a * a + b * b) (t * t))%Q
  | _, _ => false
  end.

(** [np.isclose(|z|, 0, atol=t)]: [|z| <= t + rtol * 0], false on [inf]
    and [NaN]. *)
Definition isclose0 (t : Q) (z : cnum) : bool := cabs_le z t.

(** *** Arrays of at most two dimensions

    An array is its [dtype] kind, its [shape] and its entries; the entry
    of a one-dimensional array at [i] is [item a i 0], the entry of a
    zero-dimensional one is [item a 0 0]. *)

Inductive dtype_kind : Type := kind_b | kind_i | kind_f | kind_c.

Definition kind_rank (k : dtype_kind) : nat :=
  match k with kind_b => 0 | kind_i => 1 | kind_f => 2 | kind_c => 3 end.

(** the kind of the result of an operation on two kinds *)
Definition promote_kind (k1 k2 : dtype_kind) : dtype_kind :=
  if Nat.leb (kind_rank k1) (kind_rank k2) then k2 else k1.

Definition shape_t : Type := list nat.

Definition shape_eqb (a b : shape_t) : bool :=
  if list_eq_dec Nat.eq_dec a b then true else false.

Record ndarray (A : Type) : Type := {
  dtype : dtype_kind;
  shape : shape_t;
  item : nat -> nat -> A
}.

Arguments dtype {A} _.
Arguments shape {A} _.
Arguments item {A} _ _ _.

(** the positions of an array of the given shape, in row-major order *)
Definition indices (sh : shape_t) : list (nat * nat) :=
  match sh with
  | [] => [(0, 0)]
  | [n] => map (fun i => (i, 0)) (seq 0 n)
  | [n; m] => list_prod (seq 0 n) (seq 0 m)
  | _ => []
  end.

Definition entries {A} (a : ndarray A) : list A :=
  map (fun p => item a (fst p) (snd p)) (indices (shape a)).

Definition np_any (a : ndarray bool) : bool := existsb (fun b => b) (entries a).
Definition np_all (a : ndarray bool) : bool := forallb (fun b => b) (entries a).

(** an elementwise function, the result of kind [k] *)
Definition amap {A B} (k : dtype_kind) (f : A -> B) (a : ndarray A) : ndarray B :=
  {| dtype := k; shape := shape a; item := fun i j => f (item a i j) |}.

(** an elementwise function of two arrays of one shape *)
Definition azip {A B D} (k : dtype_kind) (f : A -> B -> D)
  (a : ndarray A) (b : ndarray B) : ndarray D :=
  {| dtype := k; shape := shape a;
     item := fun i j => f (item a i j) (item b i j) |}.

(** [np.full(shape, x)] *)
Definition full {A} (k : dtype_kind) (sh : shape_t) (x : A) : ndarray A :=
  {| dtype := k; shape := sh; item := fun _ _ => x |}.

(** [a.T]: arrays of fewer than two dimensions are their own transpose. *)
Definition transpose {A} (a : ndarray A) : ndarray A :=
  match shape a with
  | [n; m] => {| dtype := dtype a; shape := [m; n];
                 item := fun i j => item a j i |}
  | _ => a
  end.

(** [np.diag(a)] of a matrix and [a.diagonal()] of a sparse matrix: the
    one-dimensional array of the diagonal entries. *)
Definition diagonal {A} (a : ndarray A) : ndarray A :=
  match shape a with
  | [n; m] => {| dtype := dtype a; shape := [Nat.min n m];
                 item := fun i _ => item a i i |}
  | _ => a
  end.

(** [np.diag(d)] of a one-dimensional array and [sp.diags([d], [0])]: the
    square matrix with [d] on its diagonal and [z] elsewhere. *)
Definition diags {A} (z : A) (d : ndarray A) : ndarray A :=
  match shape d with
  | [n] => {| dtype := dtype d; shape := [n; n];
              item := fun i j => if Nat.eqb i j then item d i 0 else z |}
  | _ => d
  end.

(** [np.eye(n)] *)
Definition eye (n : nat) : ndarray cnum :=
  {| dtype := kind_f; shape := [n; n];
     item := fun i j => if Nat.eqb i j then of_real one else of_real zero |}.

(** the sum of [f 0], ..., [f (k - 1)], from the left *)
Definition csum (k : nat) (f : nat -> cnum) : cnum :=
  fold_left (fun acc l => cadd acc (f l)) (seq 0 k) (of_real zero).

Definition rsum (k : nat) (f : nat -> num) : num :=
  fold_left (fun acc l => add acc (f l)) (seq 0 k) zero.

(** the number of rows and of columns of a matrix *)
Definition nrows {A} (a : ndarray A) : nat := nth 0 (shape a) 0%nat.
Definition ncols {A} (a : ndarray A) : nat := nth 1 (shape a) 0%nat.

(** [a @ b] and [a.dot(b)] of two matrices *)
Definition matmul (a b : ndarray cnum) : ndarray cnum :=
  {| dtype := promote_kind (dtype a) (dtype b);
     shape := [nrows a; ncols b];
     item := fun i j => csum (ncols a) (fun l => cmul (item a i l) (item b l j)) |}.

(** [a.sum(axis=0)]: the sums of the columns *)
Definition sum_axis0 (a : ndarray num) : ndarray num :=
  {| dtype := dtype a; shape := [ncols a];
     item := fun j _ => rsum (nrows a) (fun i => item a i j) |}.

(** *** Scalars and arrays under broadcasting *)

Inductive operand (A : Type) : Type :=
| Scalar (x : A)
| Array (a : ndarray A).

Arguments Scalar {A} _.
Arguments Array {A} _.

Definition op1 {A B} (k : dtype_kind) (f : A -> B) (x : operand A) : operand B :=
  match x with
  | Scalar x => Scalar (f x)
  | Array a => Array (amap k f a)
  end.

Definition op2 {A B D} (k : dtype_kind) (f : A -> B -> D)
  (x : operand A) (y : operand B) : operand D :=
  match x, y with
  | Scalar x, Scalar y => Scalar (f x y)
  | Scalar x, Array b => Array (amap k (f x) b)
  | Array a, Scalar y => Array (amap k (fun x => f x y) a)
  | Array a, Array b => Array (azip k f a b)
  end.

(** [np.any] of a boolean scalar or array *)
Definition any (x : operand bool) : bool :=
  match x with
  | Scalar b => b
  | Array a => np_any a
  end.

End NumPy.
Import NumPy.

(* ================================================================== *)
(** ** Leaves *)

Module Leaf.

(** *** Failures

    Every failure of [leaf.py] is a [ValueError]; the constructors name
    the [raise] statements by their messages. *)
Inductive error : Type :=
| DimensionGreaterThan2       (* Expressions of dimension greater than 2 are not supported. *)
| InvalidDimensions           (* Invalid dimensions %s. *)
| MustBeSquare                (* Invalid dimensions %s. Must be a square matrix. *)
| MoreThanOneSpecialAttribute (* Cannot set more than one special attribute in %s. *)
| InvalidValueDimensions      (* Invalid dimensions %s for %s value. *)
| ValueMustBe (attr_str : string) (* %s value must be %s. *)
| BoundsNotListOfTwo          (* Bounds should be a list of two items. *)
| UpperWithoutLower           (* If upper bounds are passed, lower bounds should also be passed. *)
| LowerWithoutUpper           (* If lower bounds are passed, upper bounds should also be passed. *)
| BoundsScalarsOrArrays       (* Bounds should contain scalars and/or arrays with the same dimensions *)
| UpperLessThanLower          (* Invalid bounds: some upper bounds are less than corresponding lower bounds. *)
| NegInfNotFeasible           (* -np.inf is not feasible as lower and upper bound. *)
| PosInfNotFeasible           (* np.inf is not feasible as lower and upper bound. *)
| NanNotFeasible.             (* np.nan is not feasible as lower or upper bound. *)

Inductive result (A : Type) : Type :=
| Ok (a : A)
| Raise (e : error).

Arguments Ok {A} _.
Arguments Raise {A} _.

Definition rbind {A B} (m : result A) (k : A -> result B) : result B :=
  match m with
  | Ok a => k a
  | Raise e => Raise e
  end.

Notation "x <- m ;; k" := (rbind m (fun x => k))
  (at level 61, m at next level, right associativity).

(** [if c: raise e] *)
Definition raise_if (c : bool) (e : error) : result unit :=
  if c then Raise e else Ok tt.

(** *** Values *)

(** A numeric value in the canonical representation: a NumPy array or a
    SciPy sparse matrix.  A sparse matrix is modelled by its entries;
    functions of NumPy applied to it act on the entries and keep it
    sparse. *)
Inductive value_t : Type :=
| Dense (a : ndarray cnum)
| Sparse (a : ndarray cnum).

Definition array_of (v : value_t) : ndarray cnum :=
  match v with Dense a | Sparse a => a end.

(** Modelled from the spec: [intf.is_sparse] of [cvxpy.interface], which
    is not part of the sources at hand; whether the value is a sparse
    matrix. *)
Definition is_sparse (v : value_t) : bool :=
  match v with Sparse _ => true | Dense _ => false end.

(** Modelled from the spec: [intf.shape] of [cvxpy.interface], which is
    not part of the sources at hand; the shape of the value. *)
Definition intf_shape (v : value_t) : shape_t := shape (array_of v).

(** Modelled from the spec: [intf.convert] of [cvxpy.interface], which is
    not part of the sources at hand; it "converts value to the canonical
    numeric representation", in which the values of the model already
    are. *)
Definition convert (v : value_t) : value_t := v.

(** an elementwise function, [k] giving the kind of the result *)
Definition vmap (k : dtype_kind -> dtype_kind) (f : cnum -> cnum) (v : value_t)
  : value_t :=
  match v with
  | Dense a => Dense (amap (k (dtype a)) f a)
  | Sparse a => Sparse (amap (k (dtype a)) f a)
  end.

(** a function of the whole array *)
Definition vlift (f : ndarray cnum -> ndarray cnum) (v : value_t) : value_t :=
  match v with
  | Dense a => Dense (f a)
  | Sparse a => Sparse (f a)
  end.

(** the kind of the result of an operation with a Python [int],
    [float] or [complex] scalar *)
Definition with_int (k : dtype_kind) : dtype_kind := promote_kind k kind_i.
Definition with_float (k : dtype_kind) : dtype_kind := promote_kind k kind_f.
Definition with_complex (k : dtype_kind) : dtype_kind := kind_c.
Definition same_kind (k : dtype_kind) : dtype_kind := k.

(** a real function ([0 * x], [np.minimum], [np.maximum], [np.clip],
    ...) on the real part.  An array of complex kind reaches the real
    functions of [project] only in a leaf that has a complex attribute
    together with an attribute of the reals, which [__init__] rejects. *)
Definition on_real (f : num -> num) (x : cnum) : cnum := C (f (re x)) (im x).

(** [np.real(val)] *)
Definition np_real (v : value_t) : value_t :=
  vmap (fun k => match k with kind_c => kind_f | _ => k end)
       (fun x => of_real (re x)) v.

(** [np.imag(val)] *)
Definition np_imag (v : value_t) : value_t :=
  vmap (fun k => match k with kind_c => kind_f | _ => k end)
       (fun x => of_real (im x)) v.

(** [val - projection]; the difference of two sparse matrices is sparse,
    any other difference is dense. *)
Definition vsub (v p : value_t) : value_t :=
  let d := azip (promote_kind (dtype (array_of v)) (dtype (array_of p)))
                csub (array_of v) (array_of p) in
  if is_sparse v && is_sparse p then Sparse d else Dense d.

(** *** Arguments of the constructor *)

(** an index: a tuple of as many integers as the shape has dimensions *)
Definition idx : Type := list nat.

(** the [boolean] and [integer] arguments: a [bool] or a list of indices *)
Inductive bool_or_idx : Type :=
| IsBool (b : bool)
| IsIdx (l : list idx).

(** one endpoint of [bounds] *)
Inductive bound_item : Type :=
| BNone
| BScalar (x : num)
| BArray (a : ndarray num)
| BObject.    (* any other object: neither a scalar nor an array *)

(** the [bounds] argument: [None], a [list], or another sequence *)
Inductive bounds_arg : Type :=
| BoundsNone
| BoundsList (l : list bound_item)
| BoundsTuple (l : list bound_item).

(** the [shape] argument: an integer or an iterable of integers *)
Inductive shape_arg : Type :=
| ShapeInt (n : Z)
| ShapeTuple (l : list Z).

(** the objects stored in the [attributes] dictionary *)
Inductive pyobj : Type :=
| PyBool (b : bool)
| PyFlag (x : bool_or_idx)
| PySparsity (s : option (list idx))
| PyBounds (b : bounds_arg).

Definition nonempty {A} (l : list A) : bool :=
  match l with [] => false | _ => true end.

Definition flag_truth (x : bool_or_idx) : bool :=
  match x with
  | IsBool b => b
  | IsIdx l => nonempty l
  end.

(** the truth value of an object in [if v] *)
Definition truth (v : pyobj) : bool :=
  match v with
  | PyBool b => b
  | PyFlag x => flag_truth x
  | PySparsity None => false
  | PySparsity (Some l) => nonempty l
  | PyBounds BoundsNone => false
  | PyBounds (BoundsList l) | PyBounds (BoundsTuple l) => nonempty l
  end.

Module Kwargs.
(** the keyword arguments of [Leaf.__init__] *)
Record t : Type := {
  value : option value_t;
  nonneg : bool; nonpos : bool;
  complex : bool; imag : bool;
  symmetric : bool; diag : bool;
  PSD : bool; NSD : bool;
  hermitian : bool;
  boolean : bool_or_idx; integer : bool_or_idx;
  sparsity : option (list idx);
  pos : bool; neg : bool;
  bounds : bounds_arg
}.

(** the default of every keyword *)
Definition default : t := {|
  value := None;
  nonneg := false; nonpos := false;
  complex := false; imag := false;
  symmetric := false; diag := false;
  PSD := false; NSD := false;
  hermitian := false;
  boolean := IsBool false; integer := IsBool false;
  sparsity := None;
  pos := false; neg := false;
  bounds := BoundsNone
|}.
End Kwargs.

(** *** The state of a leaf *)

(** the [attributes] dictionary; its keys are fixed *)
Record attributes_dict : Type := {
  nonneg : bool; nonpos : bool;
  pos : bool; neg : bool;
  complex : bool; imag : bool;
  symmetric : bool; diag : bool;
  PSD : bool; NSD : bool;
  hermitian : bool; boolean : bool;
  integer : bool_or_idx;
  sparsity : option (list idx);
  bounds : bounds_arg
}.

(** [self.attributes.items()], in the order of insertion *)
Definition items (d : attributes_dict) : list (string * pyobj) :=
  [ ("nonneg", PyBool (nonneg d)); ("nonpos", PyBool (nonpos d));
    ("pos", PyBool (pos d)); ("neg", PyBool (neg d));
    ("complex", PyBool (complex d)); ("imag", PyBool (imag d));
    ("symmetric", PyBool (symmetric d)); ("diag", PyBool (diag d));
    ("PSD", PyBool (PSD d)); ("NSD", PyBool (NSD d));
    ("hermitian", PyBool (hermitian d)); ("boolean", PyBool (boolean d));
    ("integer", PyFlag (integer d)); ("sparsity", PySparsity (sparsity d));
    ("bounds", PyBounds (bounds d)) ]%string.

Record Leaf : Type := {
  _shape : shape_t;
  attributes : attributes_dict;
  boolean_idx : list idx;
  integer_idx : list idx;
  _value : option value_t;
  args : list unit;       (* always empty: a leaf has no arguments *)
  _bounds : option (operand num * operand num)
}.

Definition save_value (self : Leaf) (val : option value_t) : Leaf :=
  {| _shape := _shape self; attributes := attributes self;
     boolean_idx := boolean_idx self; integer_idx := integer_idx self;
     _value := val; args := args self; _bounds := _bounds self |}.

Definition save_bounds (self : Leaf) (b : option (operand num * operand num))
  : Leaf :=
  {| _shape := _shape self; attributes := attributes self;
     boolean_idx := boolean_idx self; integer_idx := integer_idx self;
     _value := _value self; args := args self; _bounds := b |}.

Definition save_args (self : Leaf) (a : list unit) : Leaf :=
  {| _shape := _shape self; attributes := attributes self;
     boolean_idx := boolean_idx self; integer_idx := integer_idx self;
     _value := _value self; args := a; _bounds := _bounds self |}.

(** *** Sign and kind queries *)

Definition is_nonneg (self : Leaf) : bool :=
  nonneg (attributes self) || pos (attributes self) || boolean (attributes self).

Definition is_nonpos (self : Leaf) : bool :=
  nonpos (attributes self) || neg (attributes self).

Definition is_pos (self : Leaf) : bool := pos (attributes self).
Definition is_neg (self : Leaf) : bool := neg (attributes self).
Definition is_imag (self : Leaf) : bool := imag (attributes self).

Definition is_complex (self : Leaf) : bool :=
  complex (attributes self) || is_imag self || hermitian (attributes self).

Definition is_psd (self : Leaf) : bool := PSD (attributes self).
Definition is_nsd (self : Leaf) : bool := NSD (attributes self).
Definition is_diag (self : Leaf) : bool := diag (attributes self).
Definition is_convex (self : Leaf) : bool := true.
Definition is_concave (self : Leaf) : bool := true.

(** *** Settings and the linear-algebra provider *)

(** The tolerances of [cvxpy.settings], which is not part of the sources
    at hand: named configuration constants. *)
Class Settings : Type := {
  GENERAL_PROJECTION_TOL : Q;
  PSD_NSD_PROJECTION_TOL : Q;
  SPARSE_PROJECTION_TOL : Q
}.

(** What [project] and [_validate_value] consume from [numpy.linalg]:
    [LA.eigh], the eigenvalues and eigenvectors of a symmetric matrix, and
    [LA.norm(np.abs(.), ord=2)], the largest singular value of the
    entrywise modulus. *)
Class LinearAlgebra : Type := {
  eigh : ndarray cnum -> ndarray num * ndarray cnum;
  norm2_abs : ndarray cnum -> num
}.

Section Methods.
Context {settings : Settings} {linalg : LinearAlgebra}.

(** *** [project] *)

(** [(val + np.conj(val).T) / 2.] *)
Definition hermitian_part (a : ndarray cnum) : ndarray cnum :=
  amap (with_float (dtype a))
       (fun x => C (half (re x)) (half (im x)))
       (azip (dtype a) cadd a (transpose (amap (dtype a) conj a))).

(** [val = val + val.T; val /= 2.] *)
Definition symmetric_part (a : ndarray cnum) : ndarray cnum :=
  amap (with_float (dtype a))
       (fun x => C (half (re x)) (half (im x)))
       (azip (dtype a) cadd a (transpose a)).

(** [val.astype(float)] when [val.dtype.kind in 'ib'] *)
Definition float_of_ib (a : ndarray cnum) : ndarray cnum :=
  match dtype a with
  | kind_i | kind_b => {| dtype := kind_f; shape := shape a; item := item a |}
  | _ => a
  end.

(** [w[bad] = 0] *)
Definition zero_where (bad : num -> bool) (w : ndarray num) : ndarray num :=
  amap (dtype w) (fun x => if bad x then zero else x) w.

(** [(V * w).dot(V.T)]: column [j] of [V] is scaled by [w[j]]. *)
Definition reconstruct (V : ndarray cnum) (w : ndarray num) : ndarray cnum :=
  let Vw := {| dtype := dtype V; shape := shape V;
               item := fun i j => cmul (item V i j) (of_real (item w j 0)) |} in
  matmul Vw (transpose V).

Definition project (self : Leaf) (val : value_t) : value_t :=
  let attributes := attributes self in
  let val := if negb (is_complex self) then np_real val else val in
  if nonpos attributes && nonneg attributes then
    vmap with_int (on_real (mul zero)) val
  else if nonpos attributes || neg attributes then
    vmap with_float (on_real (fun x => minimum x zero)) val
  else if nonneg attributes || pos attributes then
    vmap with_float (on_real (fun x => maximum x zero)) val
  else if imag attributes then
    vmap with_complex (fun x => cmul x j1) (np_imag val)
  else if complex attributes then
    vmap with_complex (fun x => x) val
  else if boolean attributes then
    vmap with_float (on_real (fun x => round (clip x zero one))) val
  else if flag_truth (integer attributes) then
    vmap same_kind (fun x => C (round (re x)) (round (im x))) val
  else if diag attributes then
    let val :=
      if is_sparse val then diagonal (array_of val)   (* [val.diagonal()] *)
      else diagonal (array_of val) in                 (* [np.diag(val)] *)
    Sparse (diags (of_real zero) val)
  else if hermitian attributes then
    vlift hermitian_part val
  else if existsb (fun b => b)
            [symmetric attributes; PSD attributes; NSD attributes] then
    let val := vlift float_of_ib val in
    let val := vlift symmetric_part val in
    if symmetric attributes then val
    else
      let (w, V) := eigh (array_of val) in
      if PSD attributes then
        let bad := fun x => ltb x zero in
        if negb (np_any (amap kind_b bad w)) then val
        else Dense (reconstruct V (zero_where bad w))
      else
        let bad := fun x => gtb x zero in
        if negb (np_any (amap kind_b bad w)) then val
        else Dense (reconstruct V (zero_where bad w))
  else val.

(** *** [_validate_value] and the [value] property *)

(** [np.allclose(delta, 0, atol=tol)] for [delta = np.abs(d)] *)
Definition allclose0 (d : ndarray cnum) (tol : Q) : bool :=
  forallb (isclose0 tol) (entries d).

(** [delta.data] of a sparse [delta = np.abs(d)]: the stored entries,
    which are the entries that are not zero. *)
Definition data (d : ndarray cnum) : list cnum :=
  filter (fun x => negb (Num.eqb (re x) zero && Num.eqb (im x) zero)) (entries d).

(** the name of the violated attribute *)
Definition attr_str (attributes : attributes_dict) : string :=
  if nonneg attributes then "nonnegative"
  else if pos attributes then "positive"
  else if nonpos attributes then "nonpositive"
  else if neg attributes then "negative"
  else if diag attributes then "diagonal"
  else if PSD attributes then "positive semidefinite"
  else if NSD attributes then "negative semidefinite"
  else if imag attributes then "imaginary"
  else
    hd "real"%string
       (map fst (filter (fun kv => truth (snd kv)) (items attributes)) ++ ["real"%string]).

Definition _validate_value (self : Leaf) (val : option value_t)
  : result (option value_t) :=
  match val with
  | None => Ok None
  | Some val =>
      let val := convert val in
      _ <- raise_if (negb (shape_eqb (intf_shape val) (_shape self)))
             InvalidValueDimensions ;;
      let projection := project self val in
      (* [delta = np.abs(val - projection)] is kept as the difference: its
         modulus is only compared with the tolerances below. *)
      let delta := vsub val projection in
      let close_enough :=
        if is_sparse delta then
          forallb (isclose0 SPARSE_PROJECTION_TOL) (data (array_of delta))
        else if PSD (attributes self) || NSD (attributes self) then
          leb (norm2_abs (array_of delta)) (Fin PSD_NSD_PROJECTION_TOL)
        else
          allclose0 (array_of delta) GENERAL_PROJECTION_TOL in
      _ <- raise_if (negb close_enough) (ValueMustBe (attr_str (attributes self))) ;;
      Ok (Some val)
  end.

(** the getter of [value] *)
Definition value (self : Leaf) : option value_t := _value self.

(** the setter of [value]: [self.save_value(self._validate_value(val))] *)
Definition value_setter (self : Leaf) (val : option value_t) : result Leaf :=
  v <- _validate_value self val ;;
  Ok (save_value self v).

Definition project_and_assign (self : Leaf) (val : value_t) : Leaf :=
  save_value self (Some (project self val)).

(** *** The [bounds] property *)

Definition is_none (b : bound_item) : bool :=
  match b with BNone => true | _ => false end.

(** [np.isscalar] *)
Definition isscalar (b : bound_item) : bool :=
  match b with BScalar _ => true | _ => false end.

(** [isinstance(b, np.ndarray)] *)
Definition is_ndarray (b : bound_item) : bool :=
  match b with BArray _ => true | _ => false end.

(** [b.shape == shape] of an endpoint that is an array *)
Definition bound_shape_is (b : bound_item) (sh : shape_t) : bool :=
  match b with
  | BArray a => shape_eqb (shape a) sh
  | _ => false
  end.

(** An endpoint as an operand of NumPy.  The endpoints that are neither a
    scalar nor an array never get here: the setter has failed before. *)
Definition as_operand (b : bound_item) : operand num :=
  match b with
  | BScalar x => Scalar x
  | BArray a => Array a
  | BNone | BObject => Scalar NaN
  end.

(** [np.full(shape, x)] of a scalar [x] *)
Definition np_full (sh : shape_t) (x : operand num) : operand num :=
  match x with
  | Scalar x => Array (full kind_f sh x)
  | Array a => Array a
  end.

(** [np.isnan] *)
Definition np_isnan (x : operand num) : operand bool := op1 kind_b isnan x.

(** [x == y] between a Python [bool] and a float *)
Definition bool_eq_num (b : bool) (y : num) : bool := Num.eqb (of_bool b) y.

(** the getter of [bounds] *)
Definition bounds_getter (self : Leaf) : option (operand num * operand num) :=
  _bounds self.

(** the list behind a [bounds] argument that is not [None] *)
Definition seq_items (value : bounds_arg) : list bound_item :=
  match value with
  | BoundsNone => []
  | BoundsList l | BoundsTuple l => l
  end.

Definition isinstance_list (value : bounds_arg) : bool :=
  match value with BoundsList _ => true | _ => false end.

(** the setter of [bounds] *)
Definition bounds_setter (self : Leaf) (value : bounds_arg) : result Leaf :=
  match value with
  | BoundsNone => Ok (save_bounds self None)
  | _ =>
  _ <- raise_if (negb (isinstance_list value)
                 || negb (Nat.eqb (List.length (seq_items value)) 2))
         BoundsNotListOfTwo ;;
  let lower := nth 0 (seq_items value) BNone in
  let upper := nth 1 (seq_items value) BNone in
  _ <- raise_if (is_none lower && negb (is_none upper)) UpperWithoutLower ;;
  _ <- raise_if (negb (is_none lower) && is_none upper) LowerWithoutUpper ;;
  let is_lower_scalar := isscalar lower in
  let is_upper_scalar := isscalar upper in
  let is_lower_array := is_ndarray lower in
  let is_upper_array := is_ndarray upper in
  _ <- raise_if
         (negb ((is_lower_scalar && is_upper_scalar)
                || (is_lower_scalar && is_upper_array
                    && bound_shape_is upper (_shape self))
                || (is_upper_scalar && is_lower_array
                    && bound_shape_is lower (_shape self))
                || (is_lower_array && is_upper_array
                    && bound_shape_is lower (_shape self)
                    && bound_shape_is upper (_shape self))))
         BoundsScalarsOrArrays ;;
  let lower_bounds := as_operand lower in
  let upper_bounds := as_operand upper in
  _ <- raise_if (any (op2 kind_b ltb upper_bounds lower_bounds))
         UpperLessThanLower ;;
  _ <- match lower_bounds, upper_bounds with
       | Scalar lo, Scalar up =>
           _ <- raise_if (Num.eqb lo NInf && Num.eqb up NInf) NegInfNotFeasible ;;
           _ <- raise_if (Num.eqb lo PInf && Num.eqb up PInf) PosInfNotFeasible ;;
           raise_if (bool_eq_num (isnan lo) NaN || bool_eq_num (isnan up) NaN)
             NanNotFeasible
       | _, _ => Ok tt
       end ;;
  lower_bounds <-
    (if is_lower_scalar then
       let lower_bounds := np_full (_shape self) lower_bounds in
       _ <- raise_if (bool_eq_num (any (np_isnan lower_bounds)) NaN
                      || any (np_isnan upper_bounds))
              NanNotFeasible ;;
       Ok lower_bounds
     else Ok lower_bounds) ;;
  upper_bounds <-
    (if is_upper_scalar then
       let upper_bounds := np_full (_shape self) upper_bounds in
       _ <- raise_if (bool_eq_num (any (np_isnan upper_bounds)) NaN
                      || any (np_isnan lower_bounds))
              NanNotFeasible ;;
       Ok upper_bounds
     else Ok upper_bounds) ;;
  _ <- raise_if (is_lower_array && is_upper_array
                 && (any (np_isnan lower_bounds) || any (np_isnan upper_bounds)))
         NanNotFeasible ;;
  let negative_inf_conflict_mask :=
    op2 kind_b andb (op1 kind_b (fun x => Num.eqb x NInf) lower_bounds)
                    (op1 kind_b (fun x => Num.eqb x NInf) upper_bounds) in
  let positive_inf_conflict_mask :=
    op2 kind_b andb (op1 kind_b (fun x => Num.eqb x PInf) lower_bounds)
                    (op1 kind_b (fun x => Num.eqb x PInf) upper_bounds) in
  _ <- raise_if (any negative_inf_conflict_mask) NegInfNotFeasible ;;
  _ <- raise_if (any positive_inf_conflict_mask) PosInfNotFeasible ;;
  Ok (save_bounds self (Some (lower_bounds, upper_bounds)))
  end.

(** *** [__init__] *)

(** [len(shape) > 2] and the test of every dimension; [tuple(np.int32(d)
    for d in shape)] *)
Definition init_shape (shape : shape_arg) : result shape_t :=
  shape <- match shape with
           | ShapeInt n => Ok [n]
           | ShapeTuple l =>
               _ <- raise_if (Nat.ltb 2 (List.length l)) DimensionGreaterThan2 ;;
               Ok l
           end ;;
  _ <- raise_if (existsb (fun d => (d <=? 0)%Z) shape) InvalidDimensions ;;
  Ok (map Z.to_nat shape).

(** the order of Python on tuples of integers *)
Fixpoint tuple_ltb (a b : list nat) : bool :=
  match a, b with
  | [], [] => false
  | [], _ :: _ => true
  | _ :: _, [] => false
  | x :: a, y :: b => Nat.ltb x y || (Nat.eqb x y && tuple_ltb a b)
  end.

(** [max(a, b)]: the first of the largest *)
Definition tuple_max (a b : list nat) : list nat :=
  if tuple_ltb a b then b else a.

(** [list(np.ndindex(shape))] *)
Fixpoint ndindex (sh : shape_t) : list idx :=
  match sh with
  | [] => [[]]
  | n :: sh => flat_map (fun i => map (cons i) (ndindex sh)) (seq 0 n)
  end.

(** [boolean if not isinstance(boolean, bool) else
    list(np.ndindex(max(shape, (1,))))] under [if boolean], else [[]] *)
Definition flag_idx (flag : bool_or_idx) (sh : shape_t) : list idx :=
  if flag_truth flag then
    match flag with
    | IsIdx l => l
    | IsBool _ => ndindex (tuple_max sh [1])
    end
  else [].

(** [bool(boolean)] *)
Definition bool_of (flag : bool_or_idx) : bool := flag_truth flag.

(** [sum(1 for k, v in self.attributes.items() if v)] *)
Definition count_true (d : attributes_dict) : Z :=
  Z.of_nat (List.length (filter (fun kv => truth (snd kv)) (items d))).

Definition __init__ (shape : shape_arg) (kw : Kwargs.t) : result Leaf :=
  shape <- init_shape shape ;;
  _ <- raise_if
         ((Kwargs.PSD kw || Kwargs.NSD kw || Kwargs.symmetric kw
           || Kwargs.diag kw || Kwargs.hermitian kw)
          && (negb (Nat.eqb (List.length shape) 2)
              || negb (Nat.eqb (nth 0 shape 0) (nth 1 shape 0))))
         MustBeSquare ;;
  let attributes :=
    {| nonneg := Kwargs.nonneg kw; nonpos := Kwargs.nonpos kw;
       pos := Kwargs.pos kw; neg := Kwargs.neg kw;
       complex := Kwargs.complex kw; imag := Kwargs.imag kw;
       symmetric := Kwargs.symmetric kw; diag := Kwargs.diag kw;
       PSD := Kwargs.PSD kw; NSD := Kwargs.NSD kw;
       hermitian := Kwargs.hermitian kw;
       boolean := bool_of (Kwargs.boolean kw);
       integer := Kwargs.integer kw; sparsity := Kwargs.sparsity kw;
       bounds := Kwargs.bounds kw |} in
  let boolean_idx := flag_idx (Kwargs.boolean kw) shape in
  let integer_idx := flag_idx (Kwargs.integer kw) shape in
  let true_attr := count_true attributes in
  let true_attr :=
    if flag_truth (Kwargs.boolean kw) && flag_truth (Kwargs.integer kw)
    then (true_attr - 1)%Z else true_attr in
  _ <- raise_if (1 <? true_attr)%Z MoreThanOneSpecialAttribute ;;
  let self := {| _shape := shape; attributes := attributes;
                 boolean_idx := boolean_idx; integer_idx := integer_idx;
                 _value := None; args := []; _bounds := None |} in
  self <- match Kwargs.value kw with
          | Some value => value_setter self (Some value)
          | None => Ok self
          end ;;
  let self := save_args self [] in
  bounds_setter self (Kwargs.bounds kw).

End Methods.

End Leaf.

(* ================================================================== *)
(** ** [max_elemwise.numeric] *)

Module MaxElemwiseNumeric.

(** [np.maximum(a, b)] of two arrays of one shape *)
Definition np_maximum (a b : ndarray num) : ndarray num :=
  azip (promote_kind (dtype a) (dtype b)) maximum a b.

(** [functools.reduce(f, values)]: a [TypeError] on the empty sequence *)
Definition reduce {A} (f : A -> A -> A) (values : list A) : option A :=
  match values with
  | [] => None
  | v :: values => Some (fold_left f values v)
  end.

(** [numeric(self, values)], under the decorator that hands it NumPy
    arrays: [reduce(np.maximum, values)] *)
Definition numeric (values : list (ndarray num)) : option (ndarray num) :=
  reduce np_maximum values.

(** An expression with the value of its argument at hand and the two
    sign flags it reports. *)
Record valued : Type := {
  value_of : ndarray num;
  reports_positive : bool;
  reports_negative : bool
}.

#[export] Instance valued_Expression : MaxElemwise.Expression valued := {
  MaxElemwise.is_positive := reports_positive;
  MaxElemwise.is_negative := reports_negative
}.

(** the flags are right about the entry at [(i, j)] *)
Definition flags_sound (pos neg : bool) (x : num) : Prop :=
  (pos = true -> leb zero x = true) /\ (neg = true -> leb x zero = true).

(** the values of the examples: vectors of two equal entries *)
Definition threes : ndarray num := full kind_f [2] (Fin 3%Q).
Definition minus_twos : ndarray num := full kind_f [2] (Fin (- (2))%Q).
Definition nans : ndarray num := full kind_f [2] NaN.

Definition positive_arg : valued :=
  {| value_of := threes; reports_positive := true; reports_negative := false |}.
Definition negative_arg : valued :=
  {| value_of := minus_twos; reports_positive := false;
     reports_negative := true |}.

End MaxElemwiseNumeric.

(* ================================================================== *)
(** ** Certification utilities *)

Module Linalg.

(** what a function of [linalg.py] does: it returns, or raises *)
Inductive outcome (A : Type) : Type :=
| Return (a : A)
| AssertionError
| ValueError
| ArpackNoConvergence (with_note : bool).

Arguments Return {A} _.
Arguments AssertionError {A}.
Arguments ValueError {A}.
Arguments ArpackNoConvergence {A} _.

(** *** [orth] and [onb_for_orthogonal_complement] *)

(** [la.qr(V, mode='economic', pivoting=True)] of SciPy: for a matrix of
    [n] rows and [m] columns, [Q] has [n] rows and [min n m] columns and
    [R] has [min n m] rows and [m] columns. *)
Class QR : Type := {
  qr : ndarray cnum -> ndarray cnum * ndarray cnum * list nat
}.

(** [np.abs(z) > tol]; the modulus is infinite as soon as one part is. *)
Definition cabs_gt (z : cnum) (tol : Q) : bool :=
  match re z, im z with
  | Fin a, Fin b => (Qltb tol 0 || Qltb (tol * tol) (a * a + b * b))%Q
  | PInf, _ | NInf, _ | _, PInf | _, NInf => true
  | _, _ => false
  end.

(** [np.count_nonzero(np.sum(np.abs(R) > tol, axis=1))]: the number of
    rows of [R] with an entry above [tol] *)
Definition count_rows_above (R : ndarray cnum) (tol : Q) : nat :=
  List.length
    (filter (fun i => existsb (fun j => cabs_gt (item R i j) tol)
                              (seq 0 (ncols R)))
            (seq 0 (nrows R))).


Section Orth.
Context {provider : QR}.

Definition orth (V : ndarray cnum) (tol : Q) : ndarray cnum :=
  let '(Q, R, p) := qr V in
  let rank := count_rows_above R tol in
  (* [Q[:, :rank].reshape((V.shape[0], rank))] *)
  {| dtype := dtype Q; shape := [nrows V; rank]; item := item Q |}.


End Orth.

(** *** [gershgorin_psd_check] and [is_psd_within_tol] *)

(** the argument [A]: a SciPy sparse matrix, a NumPy array, or any other
    object *)
Inductive matrix_arg : Type :=
| SpMatrix (a : ndarray num)
| NdArray (a : ndarray num)
| OtherObject.

Definition below (tol : num) (x : num) : bool := ltb x (opp tol).

Definition gershgorin_psd_check (A : matrix_arg) (tol : num) : outcome bool :=
  match A with
  | SpMatrix A =>
      let diag := diagonal A in
      if np_any (amap kind_b (below tol) diag) then Return false
      else
        let A_shift := azip (dtype A) sub A (diags zero diag) in
        let A_shift := amap (dtype A) abs A_shift in
        let radii := sum_axis0 A_shift in
        Return (np_all (amap kind_b (fun x => geb x (opp tol))
                             (azip (dtype A) sub diag radii)))
  | NdArray A =>
      let diag := diagonal A in
      if np_any (amap kind_b (below tol) diag) then Return false
      else
        let A_shift := azip (dtype A) sub A (diags zero diag) in
        let A_shift := amap (dtype A) abs A_shift in
        let radii := sum_axis0 A_shift in
        Return (np_all (amap kind_b (fun x => geb x (opp tol))
                             (azip (dtype A) sub diag radii)))
  | OtherObject => ValueError
  end.

(** [sparla.eigsh(A, k=1, sigma=sigma, which='SA', v0=rand_v0,
    return_eigenvectors=False)] with the seeded start vector: an
    eigenvalue, possibly [NaN], or no convergence; and
    [np.finfo(A.dtype).eps]. *)
Class Arpack : Type := {
  SA_eigsh : matrix_arg -> num -> option num;
  eps : matrix_arg -> num
}.


(** *** The Gershgorin condition in the words of the specification *)





(** the shapes of the economic factorization *)
Definition economic (provider : QR) : Prop :=
  forall V n m, shape V = [n; m] ->
    shape (fst (fst (qr V))) = [n; Nat.min n m]
    /\ shape (snd (fst (qr V))) = [Nat.min n m; m].


(** *** The check on a square matrix of [n] rows, as the code computes it *)

(** the radius of the disc of column [j]: [A_shift.sum(axis=0)] at [j] *)
Definition column_radius (A : ndarray num) (n j : nat) : num :=
  rsum n (fun i =>
            abs (sub (item A i j) (if Nat.eqb i j then item A i i else zero))).

Definition gershgorin_code (A : ndarray num) (n : nat) (tol : num) : bool :=
  if existsb (fun i => below tol (item A i i)) (seq 0 n) then false
  else forallb (fun i => geb (sub (item A i i) (column_radius A n i)) (opp tol))
               (seq 0 n).

End Linalg.

(* ================================================================== *)
(** ** Instances used by the examples *)

Module Instances.
Import Leaf.

(** small positive tolerances, of the order of those of [cvxpy.settings] *)
Definition cvxpy_settings : Settings := {|
  GENERAL_PROJECTION_TOL := (1 # 10000000000)%Q;
  PSD_NSD_PROJECTION_TOL := (1 # 100000000)%Q;
  SPARSE_PROJECTION_TOL := (1 # 10000000000)%Q
|}.

(** the largest of [|x 0|], ..., [|x (k - 1)|] *)
Definition max_abs (k : nat) (x : nat -> num) : num :=
  fold_left (fun acc i => maximum acc (abs (x i))) (seq 0 k) zero.

(** A provider that is exact on real diagonal matrices: the eigenvalues
    of a diagonal matrix are its diagonal entries, with the identity for
    eigenvectors, and its largest singular value is the largest modulus
    on the diagonal. *)
Definition diagonal_linalg : LinearAlgebra := {|
  eigh := fun a =>
    ({| dtype := kind_f; shape := [nrows a];
        item := fun i _ => re (item a i i) |},
     eye (nrows a));
  norm2_abs := fun a => max_abs (nrows a) (fun i => re (item a i i))
|}.

(** a real vector from the list of its entries *)
Definition vector (l : list Q) : ndarray cnum :=
  {| dtype := kind_f; shape := [List.length l];
     item := fun i _ => of_real (Fin (nth i l 0%Q)) |}.

Definition rvector (l : list num) : ndarray num :=
  {| dtype := kind_f; shape := [List.length l];
     item := fun i _ => nth i l zero |}.


Definition cmatrix (n m : nat) (rows : list (list num)) : ndarray cnum :=
  {| dtype := kind_f; shape := [n; m];
     item := fun i j => of_real (nth j (nth i rows []) zero) |}.

Definition with_nonneg (kw : Kwargs.t) : Kwargs.t := {|
  Kwargs.value := Kwargs.value kw;
  Kwargs.nonneg := true; Kwargs.nonpos := Kwargs.nonpos kw;
  Kwargs.complex := Kwargs.complex kw; Kwargs.imag := Kwargs.imag kw;
  Kwargs.symmetric := Kwargs.symmetric kw; Kwargs.diag := Kwargs.diag kw;
  Kwargs.PSD := Kwargs.PSD kw; Kwargs.NSD := Kwargs.NSD kw;
  Kwargs.hermitian := Kwargs.hermitian kw;
  Kwargs.boolean := Kwargs.boolean kw; Kwargs.integer := Kwargs.integer kw;
  Kwargs.sparsity := Kwargs.sparsity kw;
  Kwargs.pos := Kwargs.pos kw; Kwargs.neg := Kwargs.neg kw;
  Kwargs.bounds := Kwargs.bounds kw
|}.

Definition with_nonpos (kw : Kwargs.t) : Kwargs.t := {|
  Kwargs.value := Kwargs.value kw;
  Kwargs.nonneg := Kwargs.nonneg kw; Kwargs.nonpos := true;
  Kwargs.complex := Kwargs.complex kw; Kwargs.imag := Kwargs.imag kw;
  Kwargs.symmetric := Kwargs.symmetric kw; Kwargs.diag := Kwargs.diag kw;
  Kwargs.PSD := Kwargs.PSD kw; Kwargs.NSD := Kwargs.NSD kw;
  Kwargs.hermitian := Kwargs.hermitian kw;
  Kwargs.boolean := Kwargs.boolean kw; Kwargs.integer := Kwargs.integer kw;
  Kwargs.sparsity := Kwargs.sparsity kw;
  Kwargs.pos := Kwargs.pos kw; Kwargs.neg := Kwargs.neg kw;
  Kwargs.bounds := Kwargs.bounds kw
|}.

Definition with_PSD (kw : Kwargs.t) : Kwargs.t := {|
  Kwargs.value := Kwargs.value kw;
  Kwargs.nonneg := Kwargs.nonneg kw; Kwargs.nonpos := Kwargs.nonpos kw;
  Kwargs.complex := Kwargs.complex kw; Kwargs.imag := Kwargs.imag kw;
  Kwargs.symmetric := Kwargs.symmetric kw; Kwargs.diag := Kwargs.diag kw;
  Kwargs.PSD := true; Kwargs.NSD := Kwargs.NSD kw;
  Kwargs.hermitian := Kwargs.hermitian kw;
  Kwargs.boolean := Kwargs.boolean kw; Kwargs.integer := Kwargs.integer kw;
  Kwargs.sparsity := Kwargs.sparsity kw;
  Kwargs.pos := Kwargs.pos kw; Kwargs.neg := Kwargs.neg kw;
  Kwargs.bounds := Kwargs.bounds kw
|}.

Definition with_boolean (b : bool_or_idx) (kw : Kwargs.t) : Kwargs.t := {|
  Kwargs.value := Kwargs.value kw;
  Kwargs.nonneg := Kwargs.nonneg kw; Kwargs.nonpos := Kwargs.nonpos kw;
  Kwargs.complex := Kwargs.complex kw; Kwargs.imag := Kwargs.imag kw;
  Kwargs.symmetric := Kwargs.symmetric kw; Kwargs.diag := Kwargs.diag kw;
  Kwargs.PSD := Kwargs.PSD kw; Kwargs.NSD := Kwargs.NSD kw;
  Kwargs.hermitian := Kwargs.hermitian kw;
  Kwargs.boolean := b; Kwargs.integer := Kwargs.integer kw;
  Kwargs.sparsity := Kwargs.sparsity kw;
  Kwargs.pos := Kwargs.pos kw; Kwargs.neg := Kwargs.neg kw;
  Kwargs.bounds := Kwargs.bounds kw
|}.


(** the leaf that [Leaf(2)] constructs, and the same leaf with its
    attributes replaced *)
Definition plain_leaf (sh : shape_t) (d : attributes_dict) : Leaf := {|
  _shape := sh; attributes := d;
  boolean_idx := []; integer_idx := [];
  _value := None; args := []; _bounds := None
|}.

Definition no_attributes : attributes_dict := {|
  nonneg := false; nonpos := false; pos := false; neg := false;
  complex := false; imag := false; symmetric := false; diag := false;
  PSD := false; NSD := false; hermitian := false; boolean := false;
  integer := IsBool false; sparsity := None; bounds := BoundsNone
|}.

Definition nonneg_attributes : attributes_dict := {|
  nonneg := true; nonpos := false; pos := false; neg := false;
  complex := false; imag := false; symmetric := false; diag := false;
  PSD := false; NSD := false; hermitian := false; boolean := false;
  integer := IsBool false; sparsity := None; bounds := BoundsNone
|}.

(** a value a little below zero, within the general tolerance *)
Definition slightly_negative : value_t :=
  Dense (vector [(- (1 # 100000000000))%Q]).

(** a vector leaf of two entries without attributes *)
Definition leaf2 : Leaf := plain_leaf [2] no_attributes.

(** A provider that is exact on the matrices that are zero below the
    diagonal and need no pivoting: [Q] is made of the first columns of
    the identity and [R] of the first rows of the matrix. *)
Definition triangular_qr : Linalg.QR := {|
  Linalg.qr := fun V =>
    let k := Nat.min (nrows V) (ncols V) in
    ({| dtype := kind_f; shape := [nrows V; k]; item := item (eye (nrows V)) |},
     {| dtype := dtype V; shape := [k; ncols V]; item := item V |},
     seq 0 (ncols V))
|}.

(** an eigenvalue solver that never converges *)
Definition no_arpack : Linalg.Arpack := {|
  Linalg.SA_eigsh := fun _ _ => None;
  Linalg.eps := fun _ => Fin (1 # 4503599627370496)%Q
|}.


Definition boolean_attributes : attributes_dict := {|
  nonneg := false; nonpos := false; pos := false; neg := false;
  complex := false; imag := false; symmetric := false; diag := false;
  PSD := false; NSD := false; hermitian := false; boolean := true;
  integer := IsBool false; sparsity := None; bounds := BoundsNone
|}.

(** the leaf that [Leaf(2, boolean=True)] constructs *)
Definition boolean_leaf : Leaf := {|
  _shape := [2]; attributes := boolean_attributes;
  boolean_idx := [[0]; [1]]; integer_idx := [];
  _value := None; args := []; _bounds := None
|}.

Definition diag_attributes : attributes_dict := {|
  nonneg := false; nonpos := false; pos := false; neg := false;
  complex := false; imag := false; symmetric := false; diag := true;
  PSD := false; NSD := false; hermitian := false; boolean := false;
  integer := IsBool false; sparsity := None; bounds := BoundsNone
|}.

Definition PSD_attributes : attributes_dict := {|
  nonneg := false; nonpos := false; pos := false; neg := false;
  complex := false; imag := false; symmetric := false; diag := false;
  PSD := true; NSD := false; hermitian := false; boolean := false;
  integer := IsBool false; sparsity := None; bounds := BoundsNone
|}.

Definition zero_attributes : attributes_dict := {|
  nonneg := true; nonpos := true; pos := false; neg := false;
  complex := false; imag := false; symmetric := false; diag := false;
  PSD := false; NSD := false; hermitian := false; boolean := false;
  integer := IsBool false; sparsity := None; bounds := BoundsNone
|}.

(** whether the validation of a value succeeds *)
Definition accepted {A} (r : result A) : bool :=
  match r with Ok _ => true | Raise _ => false end.


(** the vector [[inf]] *)
Definition infinite_vector : value_t :=
  Dense {| dtype := kind_f; shape := [1]; item := fun _ _ => of_real PInf |}.

End Instances.

(* ================================================================== *)
(** ** Predicates used in the statements *)

Module LeafSpec.
Import Leaf.


(** an attribute of square matrices is set *)
Definition matrix_attribute (kw : Kwargs.t) : bool :=
  Kwargs.PSD kw || Kwargs.NSD kw || Kwargs.symmetric kw
  || Kwargs.diag kw || Kwargs.hermitian kw.

Definition is_square (sh : shape_t) : bool :=
  match sh with
  | [n; m] => Nat.eqb n m
  | _ => false
  end.

(** the shape is accepted: at most two positive dimensions, square when
    an attribute of square matrices is set *)
Definition shape_accepted (shape : shape_arg) (kw : Kwargs.t) (sh : shape_t)
  : Prop :=
  init_shape shape = Ok sh
  /\ (matrix_attribute kw = true -> is_square sh = true).



(** the test of the shapes and kinds of the two endpoints *)
Definition endpoints_accepted (self : Leaf) (lower upper : bound_item) : bool :=
  (isscalar lower && isscalar upper)
  || (isscalar lower && is_ndarray upper && bound_shape_is upper (_shape self))
  || (isscalar upper && is_ndarray lower && bound_shape_is lower (_shape self))
  || (is_ndarray lower && is_ndarray upper
      && bound_shape_is lower (_shape self)
      && bound_shape_is upper (_shape self)).

(** *** The projection, entry by entry

    The rule of [project] that applies to a leaf, and what the rules
    that involve no eigendecomposition make of the entries of a value of
    the shape of the leaf. *)
Inductive rule : Type :=
| RZero | RNonpos | RNonneg | RImag | RComplex | RBoolean | RInteger
| RDiag | RHermitian | RSymmetric | RPSD | RNSD | RIdentity.

Definition rule_of (d : attributes_dict) : rule :=
  if nonpos d && nonneg d then RZero
  else if nonpos d || neg d then RNonpos
  else if nonneg d || pos d then RNonneg
  else if imag d then RImag
  else if complex d then RComplex
  else if boolean d then RBoolean
  else if flag_truth (integer d) then RInteger
  else if diag d then RDiag
  else if hermitian d then RHermitian
  else if symmetric d then RSymmetric
  else if PSD d then RPSD
  else if NSD d then RNSD
  else RIdentity.

(** the real part, for a leaf that is not complex *)
Definition pre (self : Leaf) (x : cnum) : cnum :=
  if negb (is_complex self) then of_real (re x) else x.

Definition chalf (x : cnum) : cnum := C (half (re x)) (half (im x)).

Definition project_entry (self : Leaf) (x : nat -> nat -> cnum)
  : nat -> nat -> cnum :=
  fun i j =>
    match rule_of (attributes self) with
    | RZero => on_real (mul zero) (pre self (x i j))
    | RNonpos => on_real (fun r => minimum r zero) (pre self (x i j))
    | RNonneg => on_real (fun r => maximum r zero) (pre self (x i j))
    | RImag => cmul (of_real (im (pre self (x i j)))) j1
    | RComplex => pre self (x i j)
    | RBoolean => on_real (fun r => round (clip r zero one)) (pre self (x i j))
    | RInteger => C (round (re (pre self (x i j)))) (round (im (pre self (x i j))))
    | RDiag => if Nat.eqb i j then pre self (x i i) else of_real zero
    | RHermitian => chalf (cadd (pre self (x i j)) (conj (pre self (x j i))))
    | RSymmetric => chalf (cadd (pre self (x i j)) (pre self (x j i)))
    | RPSD | RNSD | RIdentity => pre self (x i j)
    end.


(** the leaf has the invariant of the constructor: an attribute of
    square matrices comes with a square shape *)
Definition square_when_matrix (self : Leaf) : Prop :=
  symmetric (attributes self) || diag (attributes self)
  || hermitian (attributes self) || PSD (attributes self)
  || NSD (attributes self) = true ->
  is_square (_shape self) = true.

(** the rules of [project] that act on each entry by itself *)
Definition elementwise_rule (r : rule) : bool :=
  match r with
  | RZero | RNonpos | RNonneg | RImag | RComplex | RBoolean | RInteger
  | RIdentity => true
  | _ => false
  end.


End LeafSpec.

(* ================================================================== *)
(** ** Equality of numbers up to the representation of rationals *)

Module NumSpec.

(** two numbers are the same float: the same special value, or finite
    and equal as rationals *)
Definition nequiv (x y : num) : Prop :=
  match x, y with
  | Fin a, Fin b => (a == b)%Q
  | PInf, PInf | NInf, NInf | NaN, NaN => True
  | _, _ => False
  end.

End NumSpec.

(* ================================================================== *)
(** ** The states of a leaf *)

Module LeafStates.
Import Leaf LeafSpec.

(** the [attributes] dictionary that [__init__] makes of its keywords *)
Definition attributes_of (kw : Kwargs.t) : attributes_dict := {|
  nonneg := Kwargs.nonneg kw; nonpos := Kwargs.nonpos kw;
  pos := Kwargs.pos kw; neg := Kwargs.neg kw;
  complex := Kwargs.complex kw; imag := Kwargs.imag kw;
  symmetric := Kwargs.symmetric kw; diag := Kwargs.diag kw;
  PSD := Kwargs.PSD kw; NSD := Kwargs.NSD kw;
  hermitian := Kwargs.hermitian kw;
  boolean := bool_of (Kwargs.boolean kw);
  integer := Kwargs.integer kw; sparsity := Kwargs.sparsity kw;
  bounds := Kwargs.bounds kw
|}.

Section States.
Context {settings : Settings} {linalg : LinearAlgebra}.

(** The states a leaf goes through: made by the constructor, then
    assigned values and bounds through the two validating setters. *)
Inductive reachable : Leaf -> Prop :=
| reach_init (shape : shape_arg) (kw : Kwargs.t) (self : Leaf) :
    __init__ shape kw = Ok self -> reachable self
| reach_value (self self' : Leaf) (val : option value_t) :
    reachable self -> value_setter self val = Ok self' -> reachable self'
| reach_bounds (self self' : Leaf) (b : bounds_arg) :
    reachable self -> bounds_setter self b = Ok self' -> reachable self'.

End States.


(** the stored bounds are two arrays of the shape of the leaf, the upper
    one nowhere below the lower one, and nowhere both the same infinity *)
Definition bounds_well_formed (self : Leaf) : Prop :=
  match _bounds self with
  | None => True
  | Some (Array lo, Array up) =>
      shape lo = _shape self /\ shape up = _shape self
      /\ forall p, In p (indices (_shape self)) ->
           ltb (item up (fst p) (snd p)) (item lo (fst p) (snd p)) = false
           /\ ~ (item lo (fst p) (snd p) = NInf /\ item up (fst p) (snd p) = NInf)
           /\ ~ (item lo (fst p) (snd p) = PInf /\ item up (fst p) (snd p) = PInf)
  | Some _ => False
  end.

(** no entry of the array at the positions of the shape is [NaN] *)
Definition no_nan (a : ndarray num) : Prop :=
  forall p, In p (indices (shape a)) -> isnan (item a (fst p) (snd p)) = false.

(** the value is a real array: its imaginary parts are zero *)
Definition real_value (v : value_t) : Prop :=
  forall p, In p (indices (shape (array_of v))) ->
    im (item (array_of v) (fst p) (snd p)) = zero.

(** the real part is a finite number not below [-tol] *)
Definition nonneg_within (tol : Q) (x : cnum) : bool :=
  match re x with
  | Fin q => Qle_bool (- tol) q
  | _ => false
  end.

End LeafStates.
(* ================================================================== *)
(** ** Leaves in particular states *)

Module StateInstances.
Import Leaf Instances.

(** the leaf that [Leaf(2, nonneg=True)] constructs *)
Definition nonneg_leaf : Leaf := plain_leaf [2] nonneg_attributes.


(** the leaf that [Leaf((2, 2), diag=True)] constructs *)
Definition diag_leaf : Leaf := plain_leaf [2; 2] diag_attributes.


(** the matrix [[1, 2], [3, 4]] as a value *)
Definition matrix_1234 : value_t :=
  Dense (cmatrix 2 2 [[Fin 1%Q; Fin 2%Q]; [Fin 3%Q; Fin 4%Q]]).

End StateInstances.
(* ================================================================== *)
(** ** Quadratic forms of matrices with finite entries *)

Module Quadratic.







(** the entries of the identity matrix, and of [[2, -1], [-1, 2]] *)
Definition identity_entries (i j : nat) : Q :=
  if Nat.eqb i j then 1%Q else 0%Q.

Definition laplacian_entries (i j : nat) : Q :=
  if Nat.eqb i j then 2%Q else (- (1))%Q.

Definition laplacian2 : ndarray num :=
  {| dtype := kind_f; shape := [2; 2];
     item := fun i j => Fin (laplacian_entries i j) |}.


End Quadratic.

(* ================================================================== *)
(** * Properties *)
Example round_half_down : round (Fin (1 # 2)%Q) = zero.
Proof. reflexivity. Qed.

Example round_half_up : round (Fin (3 # 2)%Q) = (Fin 2%Q).
Proof. reflexivity. Qed.

Example inf_minus_inf : sub PInf PInf = NaN.
Proof. reflexivity. Qed.


(* ================================================================== *)
(** ** Numbers *)

Module NumFacts.
Import NumSpec.

Local Open Scope Q_scope.


Lemma nequiv_sym x y : nequiv x y -> nequiv y x.
Proof. destruct x, y; simpl; auto. intros H; now symmetry. Qed.

Lemma nequiv_trans x y z : nequiv x y -> nequiv y z -> nequiv x z.
Proof.
  destruct x, y, z; simpl; auto; try contradiction.
  intros H1 H2. now rewrite H1.
Qed.










Lemma add_nan_l x : add NaN x = NaN.
Proof. reflexivity. Qed.



(** *** Rounding *)



Lemma Qround_half_even_unit q :
  0 <= q -> q <= 1 -> Qround_half_even q = 0%Z \/ Qround_half_even q = 1%Z.
Proof.
  intros H0 H1. unfold Qround_half_even.
  assert (Hf0 : (0 <= Qfloor q)%Z).
  { change 0%Z with (Qfloor 0). now apply Qfloor_resp_le. }
  assert (Hf1 : (Qfloor q <= 1)%Z).
  { change 1%Z with (Qfloor 1). now apply Qfloor_resp_le. }
  assert (Hcase : Qfloor q = 0%Z \/ Qfloor q = 1%Z) by lia.
  destruct Hcase as [Hf | Hf]; rewrite Hf.
  - destruct (q - inject_Z 0 ?= 1 # 2); simpl; auto.
  - assert (Hq : q - inject_Z 1 <= 0).
    { unfold Qminus. setoid_replace 0 with (1 + - inject_Z 1) by reflexivity.
      now apply Qplus_le_l. }
    assert (Hlt : (q - inject_Z 1 ?= 1 # 2) = Lt).
    { apply Qlt_alt. eapply Qle_lt_trans; [exact Hq | reflexivity]. }
    rewrite Hlt. auto.
Qed.

End NumFacts.

(* ================================================================== *)
(** ** The sign rule of [max_elemwise] *)

Module MaxElemwiseFacts.
Import MaxElemwise.

Section Rule.
Context {E : Type} `{Expression E}.

Lemma any_map_true (f : E -> bool) (l : list E) :
  any (map f l) = true <-> exists a, In a l /\ f a = true.
Proof.
  unfold any. induction l as [|x l IH]; simpl.
  - split; [discriminate | intros (a & [] & _)].
  - rewrite orb_true_iff, IH. split.
    + intros [Hx | (a & Ha & Hfa)]; [exists x | exists a]; auto.
    + intros (a & [-> | Ha] & Hfa); [left | right; exists a]; auto.
Qed.

Lemma all_map_true (f : E -> bool) (l : list E) :
  all (map f l) = true <-> forall a, In a l -> f a = true.
Proof.
  unfold all. induction l as [|x l IH]; simpl.
  - split; [intros _ a [] | reflexivity].
  - rewrite andb_true_iff, IH. split.
    + intros [Hx Hl] a [<- | Ha]; auto.
    + intros Hall; split; [|intros a Ha]; apply Hall; auto.
Qed.

Lemma any_map_false (f : E -> bool) (l : list E) :
  any (map f l) = false <-> forall a, In a l -> f a = false.
Proof.
  unfold any. induction l as [|x l IH]; simpl.
  - split; [intros _ a [] | reflexivity].
  - rewrite orb_false_iff, IH. split.
    + intros [Hx Hl] a [<- | Ha]; auto.
    + intros Hall; split; [|intros a Ha]; apply Hall; auto.
Qed.

Lemma all_map_false (f : E -> bool) (l : list E) :
  all (map f l) = false <-> exists a, In a l /\ f a = false.
Proof.
  unfold all. induction l as [|x l IH]; simpl.
  - split; [discriminate | intros (a & [] & _)].
  - rewrite andb_false_iff, IH. split.
    + intros [Hx | (a & Ha & Hfa)]; [exists x | exists a]; auto.
    + intros (a & [-> | Ha] & Hfa); [left | right; exists a]; auto.
Qed.

End Rule.

Example sign_nonneg_neg : sign_from_args (init POSITIVE NEGATIVE []) = (true, false).
Proof. reflexivity. Qed.

Example sign_zero_unknown : sign_from_args (init ZERO UNKNOWN []) = (true, false).
Proof. reflexivity. Qed.

(** C5.  For [max_elemwise] over at least two arguments, [sign_from_args]
    reports the result positive exactly when at least one argument is
    positive-signed and negative exactly when all arguments are
    negative-signed, and unknown (neither) otherwise.  In particular the
    maximum of a positive-signed and a negative-signed argument is
    positive, the maximum of two negative-signed arguments is negative,
    and the maximum of a negative-signed and an unknown-signed argument
    is unknown. *)
Theorem sign_from_args_rule :
  (forall (E : Type) (X : Expression E) (arg1 arg2 : E) (rest : list E),
      let self := init arg1 arg2 rest in
      (fst (sign_from_args self) = true <->
       exists a, In a (args self) /\ is_positive a = true)
      /\ (snd (sign_from_args self) = true <->
          forall a, In a (args self) -> is_negative a = true)
      /\ (sign_from_args self = (false, false) <->
          (forall a, In a (args self) -> is_positive a = false)
          /\ exists a, In a (args self) /\ is_negative a = false))
  /\ sign_from_args (init POSITIVE NEGATIVE []) = (true, false)
  /\ sign_from_args (init NEGATIVE NEGATIVE []) = (false, true)
  /\ sign_from_args (init NEGATIVE UNKNOWN []) = (false, false).
Proof.
  split; [|repeat split].
  intros E X arg1 arg2 rest self.
  assert (Hpos : fst (sign_from_args self) = true <->
                 exists a, In a (args self) /\ is_positive a = true)
    by apply any_map_true.
  assert (Hneg : snd (sign_from_args self) = true <->
                 forall a, In a (args self) -> is_negative a = true)
    by apply all_map_true.
  split; [exact Hpos | split; [exact Hneg |]].
  pose proof (any_map_false is_positive (args self)) as Hp.
  pose proof (all_map_false is_negative (args self)) as Hn.
  unfold sign_from_args. split.
  - intros Heq; injection Heq as Hp' Hn'. split.
    + apply (proj1 Hp Hp').
    + apply (proj1 Hn Hn').
  - intros [Hp' Hn']. f_equal; [apply (proj2 Hp Hp') | apply (proj2 Hn Hn')].
Qed.

End MaxElemwiseFacts.

(* ================================================================== *)
(** ** The reduction of [max_elemwise] *)

Module LinUtilsFacts.
Import LinUtils.

Lemma loop_is_map (f : LinOp -> LinLeqConstr) (l : list LinOp) acc :
  fold_left (fun cs obj => cs ++ [f obj]) l acc = acc ++ map f l.
Proof.
  revert acc. induction l as [|x l IH]; intros acc; simpl.
  - now rewrite app_nil_r.
  - rewrite IH, <- app_assoc. reflexivity.
Qed.

Lemma graph_implementation_run (arg_objs : list LinOp) (sz : size_t) (s : nat) :
  graph_implementation arg_objs sz s
  = ((VARIABLE sz s,
      map (fun obj => create_leq (_promote obj sz) (VARIABLE sz s)) arg_objs),
     S s).
Proof.
  unfold graph_implementation, create_var, get_id, bind, ret.
  rewrite (loop_is_map
             (fun obj => create_leq (_promote obj sz) (VARIABLE sz s))).
  reflexivity.
Qed.

Lemma size_promote (a : LinOp) (sz : size_t) : size (_promote a sz) = sz.
Proof.
  unfold _promote, size_eqb.
  destruct (list_eq_dec Nat.eq_dec (size a) sz); [assumption | reflexivity].
Qed.

Lemma fresh_of_older (s : nat) (a : LinOp) : older_than s a -> ~ In s (var_ids a).
Proof.
  unfold older_than. rewrite Forall_forall. intros Hold Hin.
  specialize (Hold s Hin). lia.
Qed.

(** the two scenarios of the specification *)
Example reduce_two_args :
  graph_implementation [VARIABLE [3] 0; VARIABLE [3] 1] [3] 2
  = ((VARIABLE [3] 2,
      [ create_leq (VARIABLE [3] 0) (VARIABLE [3] 2);
        create_leq (VARIABLE [3] 1) (VARIABLE [3] 2) ]),
     3).
Proof. reflexivity. Qed.

Example reduce_three_args_promoted :
  graph_implementation [VARIABLE [3] 0; VARIABLE [1] 1; VARIABLE [3] 2] [3] 3
  = ((VARIABLE [3] 3,
      [ create_leq (VARIABLE [3] 0) (VARIABLE [3] 3);
        create_leq (PROMOTE [3] (VARIABLE [1] 1)) (VARIABLE [3] 3);
        create_leq (VARIABLE [3] 2) (VARIABLE [3] 3) ]),
     4).
Proof. reflexivity. Qed.

(** C4.  Reducing [max_elemwise] over already-reduced arguments through
    [graph_implementation] draws exactly one identifier from the supply
    and makes of it one auxiliary variable [t] of the declared output
    size, which occurs in no argument; it emits exactly as many
    inequality constraints as there are arguments, the i-th constraining
    the i-th argument, promoted to the output size when its size
    differs, to be [<= t]; and it returns [t] as the result primitive. *)
Theorem graph_implementation_spec
  (arg_objs : list LinOp) (sz : size_t) (s : nat) :
  Forall (older_than s) arg_objs ->
  exists t constraints,
    graph_implementation arg_objs sz s = ((t, constraints), S s)
    /\ t = VARIABLE sz s
    /\ size t = sz
    /\ (forall a, In a arg_objs -> ~ In s (var_ids a))
    /\ List.length constraints = List.length arg_objs
    /\ (forall i a, nth_error arg_objs i = Some a ->
          nth_error constraints i = Some (create_leq (_promote a sz) t)
          /\ size (_promote a sz) = sz
          /\ (size a = sz -> _promote a sz = a)
          /\ (size a <> sz -> _promote a sz = PROMOTE sz a)).
Proof.
  intros Hold.
  exists (VARIABLE sz s).
  exists (map (fun obj => create_leq (_promote obj sz) (VARIABLE sz s)) arg_objs).
  split; [apply graph_implementation_run|].
  split; [reflexivity|]. split; [reflexivity|].
  split.
  { intros a Ha. apply fresh_of_older.
    rewrite Forall_forall in Hold. now apply Hold. }
  split; [apply length_map|].
  intros i a Hi. split.
  { rewrite nth_error_map, Hi. reflexivity. }
  split; [apply size_promote|].
  unfold _promote, size_eqb.
  destruct (list_eq_dec Nat.eq_dec (size a) sz); split; intros; congruence.
Qed.

Lemma graph_implementation_spec_witness :
  Forall (older_than 2) [VARIABLE [3] 0; VARIABLE [3] 1]
  /\ exists t constraints,
       graph_implementation [VARIABLE [3] 0; VARIABLE [3] 1] [3] 2
       = ((t, constraints), 3)
       /\ t = VARIABLE [3] 2
       /\ List.length constraints = 2.
Proof.
  assert (Hold : Forall (older_than 2) [VARIABLE [3] 0; VARIABLE [3] 1]).
  { repeat constructor. }
  split; [exact Hold|].
  destruct (graph_implementation_spec [3] Hold)
    as (t & cs & Hrun & Ht & _ & _ & Hlen & _).
  exists t, cs. repeat split; assumption.
Defined.

End LinUtilsFacts.

(* ================================================================== *)
(** ** Leaves: construction and sign *)

Module LeafFacts.
Import Leaf LeafSpec NumSpec NumFacts Instances.

Lemma rbind_ok {A B} (m : result A) (k : A -> result B) (b : B) :
  rbind m k = Ok b -> exists a, m = Ok a /\ k a = Ok b.
Proof.
  destruct m as [a|e]; simpl; [intros H; exists a; auto | discriminate].
Qed.

Lemma raise_if_ok (c : bool) (e : error) (u : unit) :
  raise_if c e = Ok u -> c = false.
Proof. destruct c; [discriminate | reflexivity]. Qed.

(** the square test of [__init__] in terms of [is_square] *)
Lemma square_test (sh : shape_t) :
  negb (Nat.eqb (List.length sh) 2) || negb (Nat.eqb (nth 0 sh 0) (nth 1 sh 0))
  = negb (is_square sh).
Proof.
  destruct sh as [|n [|m [|k sh]]]; reflexivity.
Qed.

(** the number of true attributes as a sum *)
Lemma count_true_sum (d : attributes_dict) :
  count_true d =
  (Z.b2z (nonneg d) + Z.b2z (nonpos d) + Z.b2z (pos d) + Z.b2z (neg d)
   + Z.b2z (complex d) + Z.b2z (imag d) + Z.b2z (symmetric d)
   + Z.b2z (diag d) + Z.b2z (PSD d) + Z.b2z (NSD d) + Z.b2z (hermitian d)
   + Z.b2z (boolean d) + Z.b2z (flag_truth (integer d))
   + Z.b2z (truth (PySparsity (sparsity d)))
   + Z.b2z (truth (PyBounds (bounds d))))%Z.
Proof.
  unfold count_true, items.
  assert (Hcons : forall (k : string) (v : pyobj) l,
             Z.of_nat (List.length (filter (fun kv => truth (snd kv)) ((k, v) :: l)))
             = (Z.b2z (truth v)
                + Z.of_nat (List.length (filter (fun kv => truth (snd kv)) l)))%Z).
  { intros k v l. simpl. destruct (truth v); simpl List.length; simpl Z.b2z; lia. }
  rewrite !Hcons. simpl. lia.
Qed.

Lemma b2z_range (b : bool) : (0 <= Z.b2z b <= 1)%Z.
Proof. destruct b; simpl; lia. Qed.


Section Construction.
Context {settings : Settings} {linalg : LinearAlgebra}.

(** the constructor up to the test of the number of attributes *)
Lemma init_too_many (shape : shape_arg) (kw : Kwargs.t) (sh : shape_t) :
  shape_accepted shape kw sh ->
  (1 <? (let d := {| nonneg := Kwargs.nonneg kw; nonpos := Kwargs.nonpos kw;
                    pos := Kwargs.pos kw; neg := Kwargs.neg kw;
                    complex := Kwargs.complex kw; imag := Kwargs.imag kw;
                    symmetric := Kwargs.symmetric kw; diag := Kwargs.diag kw;
                    PSD := Kwargs.PSD kw; NSD := Kwargs.NSD kw;
                    hermitian := Kwargs.hermitian kw;
                    boolean := bool_of (Kwargs.boolean kw);
                    integer := Kwargs.integer kw;
                    sparsity := Kwargs.sparsity kw;
                    bounds := Kwargs.bounds kw |} in
         if flag_truth (Kwargs.boolean kw) && flag_truth (Kwargs.integer kw)
         then count_true d - 1 else count_true d))%Z = true ->
  __init__ shape kw = Raise MoreThanOneSpecialAttribute.
Proof.
  intros [Hshape Hsq] Hcount. unfold __init__.
  rewrite Hshape. cbn [rbind]. rewrite square_test.
  fold (matrix_attribute kw).
  assert (Hno : matrix_attribute kw && negb (is_square sh) = false).
  { destruct (matrix_attribute kw); [rewrite Hsq; reflexivity | reflexivity]. }
  rewrite Hno. cbn [raise_if rbind].
  cbv zeta in Hcount. rewrite Hcount. reflexivity.
Qed.

End Construction.

(** C6 (as the code has it).  For every leaf, the sign is determined by
    its attributes alone: the leaf is positive-signed iff [nonneg], [pos]
    or [boolean] is set, negative-signed iff [nonpos] or [neg] is set,
    and of unknown sign exactly when none of the five is set; an
    [integer] leaf without them is of unknown sign. *)
Theorem leaf_sign_from_attributes (self : Leaf) :
  let a := attributes self in
  (is_nonneg self = true <->
   nonneg a = true \/ pos a = true \/ boolean a = true)
  /\ (is_nonpos self = true <-> nonpos a = true \/ neg a = true)
  /\ (is_nonneg self = false /\ is_nonpos self = false <->
      nonneg a = false /\ pos a = false /\ boolean a = false
      /\ nonpos a = false /\ neg a = false)
  /\ is_nonneg self = nonneg a || pos a || boolean a
  /\ is_nonpos self = nonpos a || neg a.
Proof.
  unfold is_nonneg, is_nonpos. cbv zeta.
  destruct (nonneg (attributes self)), (pos (attributes self)),
    (boolean (attributes self)), (nonpos (attributes self)),
    (neg (attributes self)); simpl; intuition congruence.
Qed.

(** C6, the claim as stated fails: a leaf constructed with
    [boolean=True] has none of [nonneg], [pos] set and is
    positive-signed all the same. *)
Lemma boolean_leaf_is_nonneg :
  __init__ (settings := cvxpy_settings) (linalg := diagonal_linalg)
    (ShapeInt 2) (with_boolean (IsBool true) Kwargs.default)
  = Ok boolean_leaf
  /\ ~ (is_nonneg boolean_leaf = true <->
        nonneg (attributes boolean_leaf) = true
        \/ pos (attributes boolean_leaf) = true).
Proof.
  split; [reflexivity|].
  intros [H _]. destruct (H eq_refl); discriminate.
Qed.

(** Whatever the accepted shape and the other arguments, [nonneg=True]
    together with [nonpos=True] is rejected. *)
Lemma nonneg_with_nonpos_rejected
  (settings : Settings) (linalg : LinearAlgebra)
  (shape : shape_arg) (kw : Kwargs.t) (sh : shape_t) :
  shape_accepted shape kw sh ->
  Kwargs.nonneg kw = true -> Kwargs.nonpos kw = true ->
  __init__ shape kw = Raise MoreThanOneSpecialAttribute.
Proof.
  intros Hshape Hnn Hnp.
  apply (init_too_many Hshape). cbv zeta.
  rewrite count_true_sum. cbn [nonneg nonpos pos neg complex imag symmetric diag
    PSD NSD hermitian boolean integer sparsity bounds]. unfold bool_of.
  rewrite Hnn, Hnp. cbn [Z.b2z].
  pose proof (b2z_range (Kwargs.pos kw)).
  pose proof (b2z_range (Kwargs.neg kw)).
  pose proof (b2z_range (Kwargs.complex kw)).
  pose proof (b2z_range (Kwargs.imag kw)).
  pose proof (b2z_range (Kwargs.symmetric kw)).
  pose proof (b2z_range (Kwargs.diag kw)).
  pose proof (b2z_range (Kwargs.PSD kw)).
  pose proof (b2z_range (Kwargs.NSD kw)).
  pose proof (b2z_range (Kwargs.hermitian kw)).
  pose proof (b2z_range (flag_truth (Kwargs.boolean kw))).
  pose proof (b2z_range (flag_truth (Kwargs.integer kw))).
  pose proof (b2z_range (truth (PySparsity (Kwargs.sparsity kw)))).
  pose proof (b2z_range (truth (PyBounds (Kwargs.bounds kw)))).
  apply Z.ltb_lt.
  destruct (flag_truth (Kwargs.boolean kw)), (flag_truth (Kwargs.integer kw));
    cbn [andb Z.b2z] in *; lia.
Qed.

(** C1, what the code does: the constructor rejects [nonneg=True]
    together with [nonpos=True], as it rejects [nonneg=True] together
    with [PSD=True], with the same failure. *)
Theorem nonneg_nonpos_rejected :
  forall (settings : Settings) (linalg : LinearAlgebra),
    __init__ (ShapeInt 2) (with_nonneg (with_nonpos Kwargs.default))
    = Raise MoreThanOneSpecialAttribute
    /\ __init__ (ShapeTuple [2; 2]%Z) (with_nonneg (with_PSD Kwargs.default))
       = Raise MoreThanOneSpecialAttribute.
Proof. intros; split; reflexivity. Qed.


(** every list of two endpoints counts as true *)
Lemma bounds_pair_true (lower upper : bound_item) :
  truth (PyBounds (BoundsList [lower; upper])) = true.
Proof. reflexivity. Qed.


(** *** Assigning a value *)

Example slightly_negative_projects_to_zero :
  item (array_of (project (linalg := diagonal_linalg)
                    (plain_leaf [1] nonneg_attributes) slightly_negative)) 0 0
  = of_real zero.
Proof. reflexivity. Qed.

(** C7.  When a value is assigned to a leaf and validation succeeds, the
    value stored is the assigned value in the canonical representation,
    not its projection; the shape, the attributes, the index lists, the
    arguments and the bounds of the leaf are unchanged; when validation
    fails, the assignment fails with the same error and no new state is
    produced.  A nonnegative leaf assigned a value within the tolerance
    below zero stores that value, which differs from its projection. *)
Theorem value_setter_stores_original :
  (forall (settings : Settings) (linalg : LinearAlgebra)
          (self : Leaf) (val : option value_t),
      match _validate_value self val with
      | Ok v =>
          v = option_map convert val
          /\ value_setter self val = Ok (save_value self v)
          /\ value (save_value self v) = option_map convert val
      | Raise e => value_setter self val = Raise e
      end)
  /\ (forall (self : Leaf) (v : option value_t),
         _value (save_value self v) = v
         /\ _shape (save_value self v) = _shape self
         /\ attributes (save_value self v) = attributes self
         /\ boolean_idx (save_value self v) = boolean_idx self
         /\ integer_idx (save_value self v) = integer_idx self
         /\ args (save_value self v) = args self
         /\ _bounds (save_value self v) = _bounds self)
  /\ (let self := plain_leaf [1] nonneg_attributes in
      value_setter (settings := cvxpy_settings) (linalg := diagonal_linalg)
        self (Some slightly_negative)
      = Ok (save_value self (Some slightly_negative))
      /\ item (array_of slightly_negative) 0 0
         <> item (array_of (project (linalg := diagonal_linalg)
                              self slightly_negative)) 0 0).
Proof.
  split; [|split].
  - intros settings linalg self val.
    unfold value_setter.
    destruct (_validate_value self val) as [v|e] eqn:Hv; cbn [rbind];
      [|reflexivity].
    assert (Hsame : v = option_map convert val).
    { unfold _validate_value in Hv. destruct val as [x|]; cbn [option_map].
      - apply rbind_ok in Hv. destruct Hv as (u & _ & Hv).
        apply rbind_ok in Hv. destruct Hv as (u' & _ & Hv).
        now injection Hv as <-.
      - now injection Hv as <-. }
    split; [exact Hsame|]. split; [reflexivity|].
    unfold value. cbn [save_value _value]. exact Hsame.
  - intros self v. cbn. repeat split.
  - cbv zeta. split; [reflexivity|].
    rewrite slightly_negative_projects_to_zero. cbn. discriminate.
Qed.

(** *** Assigning bounds *)

Example bounds_5_3_rejected :
  bounds_setter leaf2 (BoundsList [BScalar (Fin 5%Q); BScalar (Fin 3%Q)])
  = Raise UpperLessThanLower.
Proof. reflexivity. Qed.

Example bounds_neg_inf_rejected :
  bounds_setter leaf2 (BoundsList [BScalar NInf; BScalar NInf])
  = Raise NegInfNotFeasible.
Proof. reflexivity. Qed.

Example bounds_3_3_stored :
  bounds_setter leaf2 (BoundsList [BScalar (Fin 3%Q); BScalar (Fin 3%Q)])
  = Ok (save_bounds leaf2
          (Some (Array (full kind_f [2] (Fin 3%Q)),
                 Array (full kind_f [2] (Fin 3%Q))))).
Proof. reflexivity. Qed.

Example bounds_scalar_nans_rejected :
  bounds_setter leaf2 (BoundsList [BScalar NaN; BScalar one])
  = Raise NanNotFeasible
  /\ bounds_setter leaf2 (BoundsList [BScalar one; BScalar NaN])
     = Raise NanNotFeasible.
Proof. split; reflexivity. Qed.

Example bounds_array_nan_rejected :
  bounds_setter leaf2
    (BoundsList [BArray (rvector [one; NaN]); BArray (rvector [one; Fin 2%Q])])
  = Raise NanNotFeasible.
Proof. reflexivity. Qed.

(** An upper endpoint below the lower endpoint at some position is
    rejected, whatever the leaf. *)
Lemma upper_below_lower_rejected (self : Leaf) (lower upper : bound_item) :
  endpoints_accepted self lower upper = true ->
  any (op2 kind_b ltb (as_operand upper) (as_operand lower)) = true ->
  bounds_setter self (BoundsList [lower; upper]) = Raise UpperLessThanLower.
Proof.
  intros Hacc Hlt. unfold bounds_setter.
  cbn [isinstance_list seq_items List.length Nat.eqb negb orb raise_if rbind nth].
  unfold endpoints_accepted in Hacc.
  destruct lower as [|lo|lo|], upper as [|up|up|];
    cbn in Hacc; try discriminate Hacc;
    cbn in Hlt; cbn; rewrite ?Hacc; cbn; rewrite Hlt; reflexivity.
Qed.

(** Both endpoints equal to the same infinity at some position are
    rejected. *)
Lemma same_infinity_rejected (self : Leaf) (lower upper : bound_item) (r : Leaf) :
  bounds_setter self (BoundsList [lower; upper]) = Ok r ->
  forall lo up, _bounds r = Some (lo, up) ->
    any (op2 kind_b andb (op1 kind_b (fun x => Num.eqb x NInf) lo)
                         (op1 kind_b (fun x => Num.eqb x NInf) up)) = false
    /\ any (op2 kind_b andb (op1 kind_b (fun x => Num.eqb x PInf) lo)
                            (op1 kind_b (fun x => Num.eqb x PInf) up)) = false.
Proof.
  intros Hset lo up Hb. unfold bounds_setter in Hset.
  cbn [isinstance_list seq_items List.length Nat.eqb negb orb raise_if rbind nth]
    in Hset.
  repeat (apply rbind_ok in Hset; destruct Hset as (? & ? & Hset)).
  injection Hset as <-. cbn [save_bounds _bounds] in Hb. injection Hb as <- <-.
  repeat match goal with
         | H : raise_if _ _ = Ok _ |- _ => apply raise_if_ok in H
         end.
  split; assumption.
Qed.

(** C2, what the code does: a [NaN] for one endpoint is accepted and
    stored when that endpoint is a scalar and the other one an array. *)
Theorem scalar_nan_bound_stored :
  bounds_setter leaf2
    (BoundsList [BScalar NaN; BArray (rvector [one; Fin 2%Q])])
  = Ok (save_bounds leaf2
          (Some (Array (full kind_f [2] NaN),
                 Array (rvector [one; Fin 2%Q]))))
  /\ bounds_setter leaf2
       (BoundsList [BArray (rvector [one; Fin 2%Q]); BScalar NaN])
     = Ok (save_bounds leaf2
             (Some (Array (rvector [one; Fin 2%Q]),
                    Array (full kind_f [2] NaN)))).
Proof. split; reflexivity. Qed.

(** *** Projection and validation *)

Section Projection.
Context {linalg : LinearAlgebra}.

Lemma is_square_shape sh : is_square sh = true -> exists n, sh = [n; n].
Proof.
  destruct sh as [|n [|m [|k sh]]]; simpl; try discriminate.
  intros H. apply Nat.eqb_eq in H. subst. now exists m.
Qed.

Lemma array_of_vmap k f v :
  shape (array_of (vmap k f v)) = shape (array_of v)
  /\ forall i j, item (array_of (vmap k f v)) i j = f (item (array_of v) i j).
Proof. destruct v; split; reflexivity. Qed.

Lemma float_of_ib_same a :
  shape (float_of_ib a) = shape a /\ item (float_of_ib a) = item a.
Proof. unfold float_of_ib. destruct (dtype a); split; reflexivity. Qed.

Lemma symmetric_float_entries (b : ndarray cnum) (n : nat) :
  shape b = [n; n] ->
  shape (symmetric_part (float_of_ib b)) = [n; n]
  /\ forall i j, item (symmetric_part (float_of_ib b)) i j
                 = chalf (cadd (item b i j) (item b j i)).
Proof.
  intros Hsh.
  destruct (float_of_ib_same b) as [E1 E2].
  unfold symmetric_part, transpose. cbn. rewrite E1. cbn. rewrite Hsh, E2.
  cbn. auto.
Qed.

(** [project], entry by entry *)
Lemma project_entries (self : Leaf) (v : value_t) :
  PSD (attributes self) = false -> NSD (attributes self) = false ->
  square_when_matrix self ->
  shape (array_of v) = _shape self ->
  shape (array_of (project self v)) = _shape self
  /\ forall i j, item (array_of (project self v)) i j
                 = project_entry self (item (array_of v)) i j.
Proof.
  intros HP HN Hsq Hsh.
  unfold project_entry, rule_of, project, pre. cbv zeta.
  rewrite HP, HN. unfold square_when_matrix in Hsq. rewrite HP, HN in Hsq.
  rewrite !orb_false_r in Hsq. cbn [existsb]. rewrite !orb_false_r.
  destruct (nonpos (attributes self) && nonneg (attributes self)) eqn:H1.
  { destruct v, (is_complex self); cbn; auto. }
  destruct (nonpos (attributes self) || neg (attributes self)) eqn:H2.
  { destruct v, (is_complex self); cbn; auto. }
  destruct (nonneg (attributes self) || pos (attributes self)) eqn:H3.
  { destruct v, (is_complex self); cbn; auto. }
  destruct (imag (attributes self)) eqn:H4.
  { destruct v, (is_complex self); cbn; auto. }
  destruct (complex (attributes self)) eqn:H5.
  { destruct v, (is_complex self); cbn; auto. }
  destruct (boolean (attributes self)) eqn:H6.
  { destruct v, (is_complex self); cbn; auto. }
  destruct (flag_truth (integer (attributes self))) eqn:H7.
  { destruct v, (is_complex self); cbn; auto. }
  destruct (diag (attributes self)) eqn:H8.
  { rewrite orb_true_r in Hsq. destruct (is_square_shape _ (Hsq eq_refl)) as [n Hn].
    rewrite Hn in *.
    destruct v as [a|a], (is_complex self); cbn in Hsh |- *;
      unfold diags, diagonal; cbn; rewrite Hsh; cbn; rewrite Nat.min_id; auto. }
  destruct (hermitian (attributes self)) eqn:H9.
  { rewrite orb_true_r in Hsq.
    destruct (is_square_shape _ (Hsq eq_refl)) as [n Hn]. rewrite Hn in *.
    destruct v as [a|a], (is_complex self); cbn in Hsh |- *;
      unfold hermitian_part, transpose; cbn; rewrite Hsh; cbn; auto. }
  destruct (symmetric (attributes self)) eqn:H10.
  { destruct (is_square_shape _ (Hsq eq_refl)) as [n Hn]. rewrite Hn in *.
    destruct v as [a|a], (is_complex self);
      cbn [negb array_of vlift np_real vmap] in Hsh |- *;
      apply symmetric_float_entries; exact Hsh. }
  destruct v, (is_complex self); cbn; auto.
Qed.

Local Open Scope Q_scope.

Lemma Qltb_irrefl q : Qltb q q = false.
Proof. unfold Qltb. apply negb_false_iff, Qle_bool_iff, Qle_refl. Qed.



Lemma clip_unit a : exists c, clip (Fin a) zero one = Fin c /\ 0 <= c /\ c <= 1.
Proof.
  unfold clip, maximum, minimum, zero, one, ltb.
  destruct (Qltb a 0) eqn:E0.
  - change (Qltb 1 0) with false. cbv iota. exists 0. split; [reflexivity|].
    split; [apply Qle_refl | discriminate].
  - destruct (Qltb 1 a) eqn:E1.
    + exists 1. split; [reflexivity|]. split; [discriminate | apply Qle_refl].
    + exists a. split; [reflexivity|]. unfold Qltb in *.
      apply negb_false_iff in E0, E1. apply Qle_bool_iff in E0, E1. auto.
Qed.








Local Close Scope Q_scope.






Section Validation.
Context {settings : Settings}.




End Validation.
End Projection.


Example validate_project_diag :
  accepted
    (_validate_value (settings := cvxpy_settings) (linalg := diagonal_linalg)
       (plain_leaf [2; 2] diag_attributes)
       (Some (project (linalg := diagonal_linalg)
                (plain_leaf [2; 2] diag_attributes)
                (Dense (cmatrix 2 2 [[one; Fin 2%Q]; [Fin 3%Q; Fin 4%Q]])))))
  = true.
Proof. vm_compute. reflexivity. Qed.

(** a [PSD] leaf and a diagonal matrix, on which the provider of the
    examples is exact: the negative eigenvalue is clipped and the
    projection is accepted *)
Example validate_project_PSD_diagonal :
  accepted
    (_validate_value (settings := cvxpy_settings) (linalg := diagonal_linalg)
       (plain_leaf [2; 2] PSD_attributes)
       (Some (project (linalg := diagonal_linalg)
                (plain_leaf [2; 2] PSD_attributes)
                (Dense (cmatrix 2 2 [[Fin (- (1))%Q; zero]; [zero; Fin 2%Q]])))))
  = true
  /\ Num.eqb
       (re (item (array_of (project (linalg := diagonal_linalg)
                              (plain_leaf [2; 2] PSD_attributes)
                              (Dense (cmatrix 2 2 [[Fin (- (1))%Q; zero];
                                                   [zero; Fin 2%Q]])))) 0 0))
       zero
     = true.
Proof. split; vm_compute; reflexivity. Qed.

(** the rule of a leaf that is both [nonneg] and [nonpos], on a finite
    entry and on an infinite one: [0 * inf] is [NaN] *)
Example zero_rule :
  item (array_of (project (linalg := diagonal_linalg)
                    (plain_leaf [1] zero_attributes)
                    (Dense (vector [(3 # 10)%Q])))) 0 0
  = C (Fin (0 * (3 # 10))%Q) zero
  /\ re (item (array_of (project (linalg := diagonal_linalg)
                           (plain_leaf [1] zero_attributes)
                           infinite_vector)) 0 0)
     = NaN.
Proof. split; reflexivity. Qed.


End LeafFacts.

(* ================================================================== *)
(** ** Certification utilities *)

Module LinalgFacts.
Import Linalg NumSpec NumFacts Instances.

(** *** The assertion of [onb_for_orthogonal_complement] *)

Lemma count_rows_above_le (R : ndarray cnum) (tol : Q) :
  count_rows_above R tol <= nrows R.
Proof.
  unfold count_rows_above.
  etransitivity; [apply filter_length_le | now rewrite length_seq].
Qed.

Lemma orth_shape {provider : QR} (V : ndarray cnum) (tol : Q) :
  shape (orth V tol)
  = [nrows V; count_rows_above (snd (fst (qr V))) tol].
Proof. unfold orth. destruct (qr V) as [[Q R] p]. reflexivity. Qed.



Lemma triangular_qr_economic : economic triangular_qr.
Proof.
  intros V n m HV. cbn. unfold nrows, ncols. rewrite HV. cbn. auto.
Qed.


(** *** The Gershgorin check *)

Lemma existsb_id_map {A} (f : A -> bool) l :
  existsb (fun b => b) (map f l) = existsb f l.
Proof. induction l; simpl; congruence. Qed.

Lemma forallb_id_map {A} (f : A -> bool) l :
  forallb (fun b => b) (map f l) = forallb f l.
Proof. induction l; simpl; congruence. Qed.



(** the code of both branches on a square matrix *)
Lemma gershgorin_square (A : ndarray num) (n : nat) (tol : num) :
  shape A = [n; n] ->
  gershgorin_psd_check (NdArray A) tol = Return (gershgorin_code A n tol)
  /\ gershgorin_psd_check (SpMatrix A) tol = Return (gershgorin_code A n tol).
Proof.
  intros HA. unfold gershgorin_psd_check, gershgorin_code.
  unfold np_any, np_all, entries, amap, azip, sum_axis0, diags, diagonal,
    nrows, ncols.
  rewrite HA. cbn [shape item dtype nth indices]. rewrite Nat.min_id.
  cbn [shape item dtype nth indices].
  rewrite !map_map. cbn [fst snd]. rewrite !existsb_id_map, !forallb_id_map.
  unfold column_radius.
  destruct (existsb _ _); split; reflexivity.
Qed.









End LinalgFacts.

(* ================================================================== *)
(** ** More on [max_elemwise] *)

Module MaxElemwiseExtra.
Import MaxElemwise MaxElemwiseNumeric LinUtils LinUtilsFacts.

Local Open Scope Q_scope.

Lemma leb_trans x y z : leb x y = true -> leb y z = true -> leb x z = true.
Proof.
  destruct x, y, z; simpl; try discriminate; auto.
  rewrite !Qle_bool_iff. apply Qle_trans.
Qed.

Lemma leb_refl x : isnan x = false -> leb x x = true.
Proof.
  destruct x; simpl; try discriminate; auto.
  intros _. apply Qle_bool_iff, Qle_refl.
Qed.

Lemma maximum_nan x y :
  isnan (maximum x y) = isnan x || isnan y.
Proof.
  destruct x, y; simpl; try reflexivity;
    match goal with |- context [if ?c then _ else _] => destruct c end;
    reflexivity.
Qed.

Lemma maximum_upper x y :
  isnan x = false -> isnan y = false ->
  leb x (maximum x y) = true /\ leb y (maximum x y) = true
  /\ (maximum x y = x \/ maximum x y = y).
Proof.
  destruct x as [a| | |], y as [b| | |]; simpl; try discriminate; intros _ _;
    try (repeat split; auto; apply Qle_bool_iff, Qle_refl).
  unfold Qltb. destruct (Qle_bool b a) eqn:E; simpl.
  - repeat split; auto. apply Qle_bool_iff, Qle_refl.
  - repeat split; auto; apply Qle_bool_iff; [|apply Qle_refl].
    destruct (Qlt_le_dec a b) as [H | H]; [now apply Qlt_le_weak|].
    apply Qle_bool_iff in H. congruence.
Qed.

Local Close Scope Q_scope.

(** the entries of the reduced maximum *)
Lemma fold_maximum_item (vs : list (ndarray num)) (v : ndarray num) i j :
  item (fold_left np_maximum vs v) i j
  = fold_left maximum (map (fun a => item a i j) vs) (item v i j).
Proof.
  revert v. induction vs as [|a vs IH]; intros v; simpl; [reflexivity|].
  rewrite IH. reflexivity.
Qed.

Lemma fold_maximum_shape (vs : list (ndarray num)) (v : ndarray num) :
  shape (fold_left np_maximum vs v) = shape v.
Proof.
  revert v. induction vs as [|a vs IH]; intros v; simpl; [reflexivity|].
  rewrite IH. reflexivity.
Qed.

Lemma fold_maximum_nan (xs : list num) (x : num) :
  isnan (fold_left maximum xs x) = isnan x || existsb isnan xs.
Proof.
  revert x. induction xs as [|y xs IH]; intros x; simpl.
  - now rewrite orb_false_r.
  - rewrite IH, maximum_nan, orb_assoc. reflexivity.
Qed.

Lemma fold_maximum_upper (xs : list num) (x : num) :
  isnan x = false -> forallb (fun y => negb (isnan y)) xs = true ->
  let r := fold_left maximum xs x in
  leb x r = true
  /\ (forall y, In y xs -> leb y r = true)
  /\ (r = x \/ In r xs).
Proof.
  revert x. induction xs as [|y xs IH]; intros x Hx Hxs; cbv zeta; simpl.
  - split; [now apply leb_refl|]. split; [intros y []|now left].
  - simpl in Hxs. apply andb_true_iff in Hxs. destruct Hxs as [Hy Hxs].
    apply negb_true_iff in Hy.
    destruct (maximum_upper x y Hx Hy) as (Hxm & Hym & Hm).
    assert (Hmn : isnan (maximum x y) = false)
      by (rewrite maximum_nan, Hx, Hy; reflexivity).
    destruct (IH (maximum x y) Hmn Hxs) as (H1 & H2 & H3).
    split; [eapply leb_trans; eassumption|].
    split.
    + intros z [<- | Hz]; [eapply leb_trans; eassumption | now apply H2].
    + destruct H3 as [H3 | H3]; [|now right; right].
      rewrite H3. destruct Hm as [-> | ->]; [now left | now right; left].
Qed.

(** at a position where no value is [NaN], the entry of the result is
    the maximum of the entries of the values *)
Lemma numeric_entries (values : list (ndarray num)) (r : ndarray num) i j :
  numeric values = Some r ->
  (forall a, In a values -> isnan (item a i j) = false) ->
  (forall a, In a values -> leb (item a i j) (item r i j) = true)
  /\ (exists a, In a values /\ item r i j = item a i j)
  /\ (forall t, (forall a, In a values -> leb (item a i j) t = true) ->
                leb (item r i j) t = true).
Proof.
  intros Hr Hnan. destruct values as [|v vs]; [discriminate|].
  injection Hr as <-. rewrite fold_maximum_item.
  assert (Hv : isnan (item v i j) = false) by (apply Hnan; now left).
  assert (Hvs : forallb (fun y => negb (isnan y))
                        (map (fun a => item a i j) vs) = true).
  { apply forallb_forall. intros y Hy. apply in_map_iff in Hy.
    destruct Hy as (a & <- & Ha). rewrite Hnan; [reflexivity | now right]. }
  destruct (fold_maximum_upper _ _ Hv Hvs) as (H1 & H2 & H3).
  assert (Hatt : exists a, In a (v :: vs)
                   /\ fold_left maximum (map (fun a => item a i j) vs) (item v i j)
                      = item a i j).
  { destruct H3 as [H3 | H3].
    - exists v. split; [now left | exact H3].
    - apply in_map_iff in H3. destruct H3 as (a & Ha & Hin).
      exists a. split; [now right | now symmetry]. }
  split; [|split; [exact Hatt|]].
  - intros a [<- | Ha]; [exact H1|]. apply H2.
    apply in_map_iff. exists a. auto.
  - intros t Ht. destruct Hatt as (a & Ha & ->). now apply Ht.
Qed.

(** X1.  On values of one shape, [numeric] fails on no values and
    otherwise has that shape.  At a position where no value is [NaN],
    the result is an upper bound of every value, is the entry of one of
    them, and is below every other upper bound: it is their maximum. *)
Theorem numeric_is_maximum (values : list (ndarray num)) (sh : shape_t) :
  (forall a, In a values -> shape a = sh) ->
  (numeric values = None <-> values = [])
  /\ forall r, numeric values = Some r ->
       shape r = sh
       /\ forall i j,
           (forall a, In a values -> isnan (item a i j) = false) ->
           (forall a, In a values -> leb (item a i j) (item r i j) = true)
           /\ (exists a, In a values /\ item r i j = item a i j)
           /\ (forall t, (forall a, In a values -> leb (item a i j) t = true) ->
                         leb (item r i j) t = true).
Proof.
  intros Hsh. split.
  { destruct values; simpl; split; intros H; congruence. }
  intros r Hr. split.
  - destruct values as [|v vs]; [discriminate|].
    injection Hr as <-. rewrite fold_maximum_shape. apply Hsh. now left.
  - intros i j. now apply numeric_entries.
Qed.

Lemma numeric_is_maximum_witness :
  exists r, numeric [threes; minus_twos] = Some r
            /\ shape r = [2]
            /\ leb (item minus_twos 0 0) (item r 0 0) = true.
Proof.
  destruct (@numeric_is_maximum [threes; minus_twos] [2]) as [_ H].
  - intros a [<- | [<- | []]]; reflexivity.
  - exists (np_maximum threes minus_twos). split; [reflexivity|].
    destruct (H _ eq_refl) as [Hs He]. split; [exact Hs|].
    destruct (He 0 0) as (Hub & _).
    + intros a [<- | [<- | []]]; reflexivity.
    + apply Hub. right. left. reflexivity.
Defined.

(** X2.  On values of one shape, [numeric] propagates [NaN]: an entry of
    the result is [NaN] exactly when the entry of some value at that
    position is. *)
Theorem numeric_nan (values : list (ndarray num)) (sh : shape_t)
  (r : ndarray num) (i j : nat) :
  (forall a, In a values -> shape a = sh) ->
  numeric values = Some r ->
  (isnan (item r i j) = true <->
   exists a, In a values /\ isnan (item a i j) = true).
Proof.
  intros _ Hr. destruct values as [|v vs]; [discriminate|].
  injection Hr as <-. rewrite fold_maximum_item, fold_maximum_nan.
  rewrite orb_true_iff, existsb_exists. split.
  - intros [Hv | (x & Hx & Hn)].
    + exists v. split; [now left | exact Hv].
    + apply in_map_iff in Hx. destruct Hx as (a & <- & Ha).
      exists a. split; [now right | exact Hn].
  - intros (a & [<- | Ha] & Hn); [now left|].
    right. exists (item a i j). split; [|exact Hn].
    apply in_map_iff. now exists a.
Qed.

Lemma numeric_nan_witness :
  isnan (item (np_maximum threes nans) 0 0) = true.
Proof.
  apply (proj2 (@numeric_nan [threes; nans] [2] (np_maximum threes nans) 0 0
                  ltac:(intros a [<- | [<- | []]]; reflexivity) eq_refl)).
  exists nans. split; [right; left; reflexivity | reflexivity].
Defined.

(** X3.  The sign rule is sound for the numeric value: when the values
    of the arguments have one shape, the flags of every argument are
    right about its entry at a position, and no entry there is [NaN],
    the flags that [sign_from_args] computes are right about the entry
    of [numeric] there. *)
Theorem sign_from_args_sound (arg1 arg2 : valued) (rest : list valued)
  (sh : shape_t) (i j : nat) :
  let self := init arg1 arg2 rest in
  (forall a, In a (args self) -> shape (value_of a) = sh) ->
  (forall a, In a (args self) -> isnan (item (value_of a) i j) = false) ->
  (forall a, In a (args self) ->
     flags_sound (reports_positive a) (reports_negative a)
                 (item (value_of a) i j)) ->
  exists r, numeric (map value_of (args self)) = Some r
            /\ flags_sound (fst (sign_from_args self))
                            (snd (sign_from_args self)) (item r i j).
Proof.
  intros self _ Hnan Hsound.
  destruct (numeric (map value_of (args self))) as [r|] eqn:Hr;
    [|discriminate Hr].
  exists r. split; [reflexivity|].
  assert (Hn : forall a, In a (map value_of (args self)) ->
                         isnan (item a i j) = false).
  { intros a Ha. apply in_map_iff in Ha. destruct Ha as (e & <- & He).
    now apply Hnan. }
  destruct (@numeric_entries _ r i j Hr Hn) as (Hub & (a & Ha & Hatt) & _).
  apply in_map_iff in Ha. destruct Ha as (e & <- & He).
  split.
  - intros Hp. apply MaxElemwiseFacts.any_map_true in Hp.
    destruct Hp as (p & Hpin & Hpp).
    apply leb_trans with (y := item (value_of p) i j).
    + now apply (Hsound p Hpin).
    + apply Hub. apply in_map_iff. exists p. auto.
  - intros Hneg. rewrite Hatt.
    pose proof (proj1 (MaxElemwiseFacts.all_map_true is_negative (args self))
                      Hneg e He) as Hne.
    apply (Hsound e He). exact Hne.
Qed.

Lemma sign_from_args_sound_witness :
  exists r, numeric [value_of positive_arg; value_of negative_arg] = Some r
            /\ leb zero (item r 0 0) = true.
Proof.
  destruct (@sign_from_args_sound positive_arg negative_arg [] [2] 0 0)
    as (r & Hr & Hs).
  - intros a [<- | [<- | []]]; reflexivity.
  - intros a [<- | [<- | []]]; reflexivity.
  - intros a [<- | [<- | []]]; split; intros H;
      first [discriminate H | reflexivity].
  - exists r. split; [exact Hr|]. apply (proj1 Hs). reflexivity.
Defined.

Lemma older_than_mono (s s' : nat) (op : LinOp) :
  s <= s' -> older_than s op -> older_than s' op.
Proof.
  unfold older_than. rewrite !Forall_forall. intros Hle H i Hi.
  specialize (H i Hi). lia.
Qed.

Lemma older_than_promote (s : nat) (op : LinOp) (sz : size_t) :
  older_than s op -> older_than s (_promote op sz).
Proof.
  unfold _promote. destruct (size_eqb (size op) sz); auto.
Qed.

Lemma older_than_fresh (s : nat) (sz : size_t) : older_than (S s) (VARIABLE sz s).
Proof. unfold older_than. simpl. repeat constructor. Qed.

(** the constraints of one reduction *)
Lemma constraints_older (args : list LinOp) (sz : size_t) (s : nat) :
  Forall (older_than s) args ->
  Forall (fun c => older_than (S s) (lhs c) /\ older_than (S s) (rhs c))
         (map (fun obj => create_leq (_promote obj sz) (VARIABLE sz s)) args).
Proof.
  intros H. apply Forall_map. revert H. apply Forall_impl. intros a Ha.
  cbn [create_leq lhs rhs]. split; [|apply older_than_fresh].
  apply older_than_promote. apply older_than_mono with (s := s); [lia | exact Ha].
Qed.

(** X4.  The reduction keeps the supply of identifiers sound, so that
    reductions compose: when every variable of the arguments is older
    than the counter, every variable of the result and of the
    constraints is older than the counter after the reduction; a second
    reduction, whose arguments may contain the first result, makes a
    variable that differs from the first one and occurs nowhere in the
    first result or its constraints. *)
Theorem graph_implementation_composes
  (args1 : list LinOp) (args2 : LinOp -> list LinOp) (sz1 sz2 : size_t)
  (s : nat) :
  Forall (older_than s) args1 ->
  (forall t1, older_than (S s) t1 -> Forall (older_than (S s)) (args2 t1)) ->
  exists t1 c1 t2 c2,
    (r1 <- graph_implementation args1 sz1 ;;
     r2 <- graph_implementation (args2 (fst r1)) sz2 ;;
     ret (r1, r2)) s
    = (((t1, c1), (t2, c2)), S (S s))
    /\ older_than (S s) t1
    /\ Forall (fun c => older_than (S s) (lhs c) /\ older_than (S s) (rhs c)) c1
    /\ t2 = VARIABLE sz2 (S s)
    /\ t1 <> t2
    /\ ~ In (S s) (var_ids t1)
    /\ Forall (fun c => ~ In (S s) (var_ids (lhs c))
                        /\ ~ In (S s) (var_ids (rhs c))) c1
    /\ Forall (fun c => older_than (S (S s)) (lhs c)
                        /\ older_than (S (S s)) (rhs c)) c2.
Proof.
  intros H1 H2.
  pose proof (older_than_fresh s sz1) as Ht1.
  pose proof (constraints_older sz1 H1) as Hc1.
  pose proof (constraints_older sz2 (H2 _ Ht1)) as Hc2.
  do 4 eexists. split.
  { unfold bind at 1. rewrite graph_implementation_run.
    unfold bind at 1. cbn [fst]. rewrite graph_implementation_run.
    reflexivity. }
  split; [exact Ht1|]. split; [exact Hc1|]. split; [reflexivity|].
  split; [intros Heq; injection Heq; lia|].
  split; [now apply fresh_of_older|].
  split; [|exact Hc2].
  revert Hc1. apply Forall_impl. intros c [Hl Hr].
  split; now apply fresh_of_older.
Qed.

Lemma graph_implementation_composes_witness :
  exists t1 c1 t2 c2,
    (r1 <- graph_implementation [VARIABLE [3] 0; VARIABLE [3] 1] [3] ;;
     r2 <- graph_implementation [fst r1; VARIABLE [3] 0] [3] ;;
     ret (r1, r2)) 2
    = (((t1, c1), (t2, c2)), 4)
    /\ t1 <> t2.
Proof.
  destruct (@graph_implementation_composes
              [VARIABLE [3] 0; VARIABLE [3] 1]
              (fun t1 => [t1; VARIABLE [3] 0]) [3] [3] 2)
    as (t1 & c1 & t2 & c2 & Hrun & _ & _ & _ & Hne & _).
  - repeat constructor.
  - intros t1 Ht1. constructor; [exact Ht1|].
    constructor; [|constructor]. unfold older_than. simpl. repeat constructor.
  - exists t1, c1, t2, c2. split; assumption.
Defined.

End MaxElemwiseExtra.

(* ================================================================== *)
(** ** More on leaves *)

Module LeafExtra.
Import Leaf LeafSpec LeafStates NumSpec NumFacts Instances StateInstances LeafFacts.

(** *** Assigning bounds *)

Lemma np_any_amap_false {A} (f : A -> bool) k (a : ndarray A) :
  np_any (amap k f a) = false ->
  forall p, In p (indices (shape a)) -> f (item a (fst p) (snd p)) = false.
Proof.
  unfold np_any, entries. cbn [amap shape item]. intros H p Hp.
  destruct (f (item a (fst p) (snd p))) eqn:E; [|reflexivity].
  rewrite <- H. symmetry. apply existsb_exists.
  exists true. split; [|reflexivity]. apply in_map_iff. exists p. auto.
Qed.

Lemma np_any_azip_false {A B} (f : A -> B -> bool) k (a : ndarray A) (b : ndarray B) :
  np_any (azip k f a b) = false ->
  forall p, In p (indices (shape a)) ->
    f (item a (fst p) (snd p)) (item b (fst p) (snd p)) = false.
Proof.
  unfold np_any, entries. cbn [azip shape item]. intros H p Hp.
  destruct (f _ _) eqn:E; [|reflexivity].
  rewrite <- H. symmetry. apply existsb_exists.
  exists true. split; [|reflexivity]. apply in_map_iff. exists p. auto.
Qed.

Lemma shape_eqb_eq a b : shape_eqb a b = true -> a = b.
Proof. unfold shape_eqb. destruct (list_eq_dec Nat.eq_dec a b); congruence. Qed.

Ltac unbind :=
  repeat match goal with
         | H : rbind _ _ = Ok _ |- _ =>
             apply rbind_ok in H; destruct H as (? & ? & ?)
         | H : raise_if _ _ = Ok _ |- _ => apply raise_if_ok in H
         | H : Ok _ = Ok _ |- _ => injection H as H; try subst
         end.

Lemma same_inf_false (f : num) (x y : num) :
  (f = NInf \/ f = PInf) ->
  Num.eqb x f && Num.eqb y f = false -> ~ (x = f /\ y = f).
Proof.
  intros Hf H [-> ->]. destruct Hf as [-> | ->]; discriminate H.
Qed.

Lemma bounds_setter_well_formed (self r : Leaf) (b : bounds_arg) :
  bounds_setter self b = Ok r -> bounds_well_formed r.
Proof.
  intros H. unfold bounds_setter in H.
  destruct b as [|l|l]; [injection H as <-; exact I| |discriminate H].
  destruct l as [|lo [|up [|z l]]]; try discriminate H.
  destruct lo as [|x|a|], up as [|y|c|]; cbn in H; try discriminate H.
  all: unbind.
  all: unfold bounds_well_formed; cbn [save_bounds _bounds _shape full shape].
  all: repeat match goal with
         | H : negb _ = false |- _ => apply negb_false_iff in H
         | H : _ || false = true |- _ => rewrite orb_false_r in H
         | H : _ && _ = true |- _ => apply andb_true_iff in H; destruct H
         | H : shape_eqb _ _ = true |- _ => apply shape_eqb_eq in H
         end.
  all: split; [first [reflexivity | assumption]|].
  all: split; [first [reflexivity | assumption]|].
  all: intros p Hp; cbn [any op1 op2 np_isnan] in *;
    repeat match goal with
         | Hn : np_any (azip _ _ _ _) = false |- _ =>
             let F := fresh "F" in
             pose proof (@np_any_azip_false _ _ _ _ _ _ Hn p) as F;
             cbn [amap azip shape item full] in F; clear Hn
         | Hn : np_any (amap _ _ _) = false |- _ =>
             let F := fresh "F" in
             pose proof (@np_any_amap_false _ _ _ _ Hn p) as F;
             cbn [amap azip shape item full] in F; clear Hn
         end;
    repeat match goal with
         | F : In p (indices ?S) -> _ |- _ =>
             let HS := fresh in
             assert (HS : In p (indices S)) by congruence;
             specialize (F HS); clear HS
         end;
    cbn [full item]; cbv beta in *;
    (split; [assumption|]);
    split; apply same_inf_false; auto.
Qed.

(** X5.  A successful assignment of bounds stores two arrays of the shape
    of the leaf, scalars being broadcast, such that at no position the
    upper bound is below the lower one or both are the same infinity;
    assigning [None] clears the bounds; nothing else in the leaf
    changes. *)
Theorem bounds_setter_postcondition (self r : Leaf) (b : bounds_arg) :
  bounds_setter self b = Ok r ->
  bounds_well_formed r
  /\ (b = BoundsNone <-> _bounds r = None)
  /\ _shape r = _shape self /\ attributes r = attributes self
  /\ _value r = _value self /\ args r = args self
  /\ boolean_idx r = boolean_idx self /\ integer_idx r = integer_idx self.
Proof.
  intros H. split; [now apply bounds_setter_well_formed with (self := self) (b := b)|].
  split.
  - unfold bounds_setter in H. destruct b as [|l|l].
    + injection H as <-. split; reflexivity.
    + unbind. split; discriminate.
    + discriminate H.
  - unfold bounds_setter in H. destruct b as [|l|l].
    + injection H as <-. repeat split.
    + unbind. repeat split.
    + discriminate H.
Qed.

Lemma bounds_setter_postcondition_witness :
  exists r,
    bounds_setter leaf2 (BoundsList [BScalar zero; BArray (rvector [one; PInf])])
    = Ok r
    /\ bounds_well_formed r.
Proof.
  eexists. split; [reflexivity|].
  apply (@bounds_setter_postcondition leaf2 _
           (BoundsList [BScalar zero; BArray (rvector [one; PInf])]) eq_refl).
Defined.

Lemma existsb_const {A} (b : bool) (l : list A) :
  l <> [] -> existsb (fun c => c) (map (fun _ => b) l) = b.
Proof.
  destruct l as [|p l]; [contradiction|]. intros _. simpl.
  destruct b; [reflexivity|]. simpl.
  induction l as [|q l IH]; simpl; auto.
Qed.

Lemma np_any_full_isnan (sh : shape_t) (x : num) :
  indices sh <> [] ->
  np_any (amap kind_b isnan (full kind_f sh x)) = isnan x.
Proof.
  intros Hne. unfold np_any, entries. cbn [amap full shape item].
  now apply existsb_const.
Qed.

(** X6.  After a successful assignment of bounds to a leaf whose shape
    has positions, an endpoint that was given as an array holds no
    [NaN], and when both endpoints were given as scalars neither is
    [NaN]. *)
Theorem bounds_setter_nan (self r : Leaf) (lower upper : bound_item) :
  indices (_shape self) <> [] ->
  bounds_setter self (BoundsList [lower; upper]) = Ok r ->
  (forall a, lower = BArray a -> no_nan a)
  /\ (forall c, upper = BArray c -> no_nan c)
  /\ (forall x y, lower = BScalar x -> upper = BScalar y ->
        isnan x = false /\ isnan y = false).
Proof.
  intros Hne H. unfold bounds_setter in H.
  destruct lower as [|x|a|], upper as [|y|c|]; cbn in H; try discriminate H;
    unbind; cbn [any op1 op2 np_isnan] in *;
    repeat match goal with
           | H : negb _ = false |- _ => apply negb_false_iff in H
           | H : _ || false = true |- _ => rewrite orb_false_r in H
           | H : _ && _ = true |- _ => apply andb_true_iff in H; destruct H
           | H : _ || _ = false |- _ => apply orb_false_iff in H; destruct H
           | H : shape_eqb _ _ = true |- _ => apply shape_eqb_eq in H
           end;
    (split; [|split]); intros; try discriminate;
    repeat match goal with
           | E : BArray _ = BArray _ |- _ => injection E as <-
           | E : BScalar _ = BScalar _ |- _ => injection E as <-
           end.
  - split; [|assumption].
    match goal with
    | Hn : np_any (amap kind_b isnan (full kind_f (_shape self) x)) = false |- _ =>
        now rewrite np_any_full_isnan in Hn
    end.
  - intros p Hp.
    match goal with
    | Hn : np_any (amap kind_b isnan c) = false |- _ =>
        apply (@np_any_amap_false _ _ _ _ Hn p Hp)
    end.
  - intros p Hp.
    match goal with
    | Hn : np_any (amap kind_b isnan a) = false |- _ =>
        apply (@np_any_amap_false _ _ _ _ Hn p Hp)
    end.
  - intros p Hp.
    match goal with
    | Hn : np_any (amap kind_b isnan a) = false |- _ =>
        apply (@np_any_amap_false _ _ _ _ Hn p Hp)
    end.
  - intros p Hp.
    match goal with
    | Hn : np_any (amap kind_b isnan c) = false |- _ =>
        apply (@np_any_amap_false _ _ _ _ Hn p Hp)
    end.
Qed.

Lemma bounds_setter_nan_witness :
  exists r,
    bounds_setter leaf2
      (BoundsList [BArray (rvector [zero; zero]); BArray (rvector [one; PInf])])
    = Ok r
    /\ no_nan (rvector [one; PInf]).
Proof.
  eexists. split; [reflexivity|].
  refine (proj1 (proj2 (@bounds_setter_nan leaf2 _
                          (BArray (rvector [zero; zero]))
                          (BArray (rvector [one; PInf])) _ eq_refl))
            _ eq_refl).
  discriminate.
Defined.

(** X7.  The bounds setter rejects every malformed argument before it
    looks at a number: a sequence that is not a list, a list that has not
    two items, one endpoint [None] without the other, both endpoints
    [None], and an array endpoint whose shape is not the shape of the
    leaf. *)
Theorem bounds_setter_malformed (self : Leaf) :
  (forall l, bounds_setter self (BoundsTuple l) = Raise BoundsNotListOfTwo)
  /\ (forall l, List.length l <> 2 ->
        bounds_setter self (BoundsList l) = Raise BoundsNotListOfTwo)
  /\ (forall upper, upper <> BNone ->
        bounds_setter self (BoundsList [BNone; upper]) = Raise UpperWithoutLower)
  /\ (forall lower, lower <> BNone ->
        bounds_setter self (BoundsList [lower; BNone]) = Raise LowerWithoutUpper)
  /\ bounds_setter self (BoundsList [BNone; BNone]) = Raise BoundsScalarsOrArrays
  /\ (forall (a : ndarray num) upper, shape a <> _shape self -> upper <> BNone ->
        bounds_setter self (BoundsList [BArray a; upper])
        = Raise BoundsScalarsOrArrays)
  /\ (forall lower (c : ndarray num), shape c <> _shape self -> lower <> BNone ->
        bounds_setter self (BoundsList [lower; BArray c])
        = Raise BoundsScalarsOrArrays).
Proof.
  assert (Hshape : forall a : ndarray num, shape a <> _shape self ->
                             shape_eqb (shape a) (_shape self) = false).
  { intros a Hne. unfold shape_eqb.
    destruct (list_eq_dec Nat.eq_dec (shape a) (_shape self)); congruence. }
  repeat split.
  - intros l. unfold bounds_setter.
    destruct l as [|x [|y [|z l]]]; simpl; try reflexivity.
    intros H. now contradiction H.
  - intros upper Hu. destruct upper; [contradiction | | |]; reflexivity.
  - intros lower Hl. destruct lower; [contradiction | | |]; reflexivity.
  - intros a upper Ha Hu. unfold bounds_setter.
    destruct upper; [contradiction | | |]; cbn; rewrite ?(Hshape a Ha);
      rewrite ?andb_false_r; reflexivity.
  - intros lower c Hc Hl. unfold bounds_setter.
    destruct lower; [contradiction | | |]; cbn; rewrite ?(Hshape c Hc);
      rewrite ?andb_false_r; reflexivity.
Qed.

Section Invariants.
Context {settings : Settings} {linalg : LinearAlgebra}.

(** *** What the setters and the constructor leave in the state *)

Lemma value_setter_result (self r : Leaf) (val : option value_t) :
  value_setter self val = Ok r ->
  r = save_value self (option_map convert val)
  /\ _validate_value self val = Ok (option_map convert val).
Proof.
  unfold value_setter. intros H. apply rbind_ok in H.
  destruct H as (v & Hv & H). injection H as <-.
  assert (Hsame : v = option_map convert val).
  { unfold _validate_value in Hv. destruct val as [x|]; cbn [option_map].
    - apply rbind_ok in Hv. destruct Hv as (u & _ & Hv).
      apply rbind_ok in Hv. destruct Hv as (u' & _ & Hv).
      now injection Hv as <-.
    - now injection Hv as <-. }
  subst v. auto.
Qed.

Lemma bounds_setter_result (self r : Leaf) (b : bounds_arg) :
  bounds_setter self b = Ok r -> exists x, r = save_bounds self x.
Proof.
  unfold bounds_setter. destruct b as [|l|l]; intros H.
  - injection H as <-. eauto.
  - repeat (apply rbind_ok in H; destruct H as (? & _ & H)).
    injection H as <-. eauto.
  - repeat (apply rbind_ok in H; destruct H as (? & _ & H)).
    injection H as <-. eauto.
Qed.

(** validation reads the shape and the attributes of the leaf only *)
Lemma validate_value_reads (self self' : Leaf) (val : option value_t) :
  _shape self' = _shape self -> attributes self' = attributes self ->
  _validate_value self' val = _validate_value self val.
Proof.
  intros Hs Ha. unfold _validate_value, project, is_complex, is_imag.
  rewrite Hs, Ha. reflexivity.
Qed.

(** the constructor, step by step *)
Lemma init_steps (shape : shape_arg) (kw : Kwargs.t) (self : Leaf) :
  __init__ shape kw = Ok self ->
  exists sh self1,
    init_shape shape = Ok sh
    /\ (matrix_attribute kw = true -> is_square sh = true)
    /\ ((if flag_truth (Kwargs.boolean kw) && flag_truth (Kwargs.integer kw)
         then count_true (attributes_of kw) - 1
         else count_true (attributes_of kw)) <= 1)%Z
    /\ (let self0 := {| _shape := sh; attributes := attributes_of kw;
                       boolean_idx := flag_idx (Kwargs.boolean kw) sh;
                       integer_idx := flag_idx (Kwargs.integer kw) sh;
                       _value := None; args := []; _bounds := None |} in
        match Kwargs.value kw with
        | Some v => value_setter self0 (Some v) = Ok self1
        | None => self1 = self0
        end)
    /\ bounds_setter (save_args self1 []) (Kwargs.bounds kw) = Ok self.
Proof.
  intros H. unfold __init__ in H.
  apply rbind_ok in H. destruct H as (sh & Hsh & H).
  apply rbind_ok in H. destruct H as (u & Hsq & H).
  apply raise_if_ok in Hsq. rewrite square_test in Hsq.
  apply rbind_ok in H. destruct H as (u' & Hcount & H).
  apply raise_if_ok in Hcount.
  apply rbind_ok in H. destruct H as (self1 & H1 & H).
  exists sh, self1. split; [exact Hsh|]. split.
  { intros Hm. fold (matrix_attribute kw) in Hsq. rewrite Hm in Hsq.
    destruct (is_square sh); [reflexivity | discriminate]. }
  split.
  { apply Z.ltb_ge in Hcount. fold (attributes_of kw) in Hcount.
    exact Hcount. }
  split; [|exact H].
  cbv zeta. fold (attributes_of kw) in H1.
  destruct (Kwargs.value kw) as [v|]; [exact H1 | now injection H1 as <-].
Qed.



(** the state that the constructor returns *)
Lemma init_state (shape : shape_arg) (kw : Kwargs.t) (self : Leaf) :
  __init__ shape kw = Ok self ->
  exists sh x,
    init_shape shape = Ok sh
    /\ (matrix_attribute kw = true -> is_square sh = true)
    /\ ((if flag_truth (Kwargs.boolean kw) && flag_truth (Kwargs.integer kw)
         then count_true (attributes_of kw) - 1
         else count_true (attributes_of kw)) <= 1)%Z
    /\ self = {| _shape := sh; attributes := attributes_of kw;
                 boolean_idx := flag_idx (Kwargs.boolean kw) sh;
                 integer_idx := flag_idx (Kwargs.integer kw) sh;
                 _value := option_map convert (Kwargs.value kw);
                 args := []; _bounds := x |}
    /\ _validate_value self (Kwargs.value kw)
       = Ok (option_map convert (Kwargs.value kw))
    /\ bounds_well_formed self.
Proof.
  intros H. destruct (init_steps _ _ H) as (sh & self1 & Hsh & Hsq & Hc & H1 & Hb).
  pose proof (bounds_setter_well_formed _ _ Hb) as Hwf.
  destruct (bounds_setter_result _ _ Hb) as (x & ->).
  exists sh, x. split; [exact Hsh|]. split; [exact Hsq|]. split; [exact Hc|].
  cbv zeta in H1. destruct (Kwargs.value kw) as [v|].
  - apply value_setter_result in H1. destruct H1 as [-> Hv].
    split; [reflexivity|]. split; [|exact Hwf].
    rewrite <- Hv. apply validate_value_reads; reflexivity.
  - subst self1. split; [reflexivity|]. split; [reflexivity | exact Hwf].
Qed.


(** the count of true attributes in a state of a leaf *)
Lemma reachable_count (self : Leaf) :
  reachable self ->
  (count_true (attributes self) <= 1)%Z
  \/ (boolean (attributes self) = true
      /\ flag_truth (integer (attributes self)) = true
      /\ count_true (attributes self) = 2%Z).
Proof.
  intros Hr.
  induction Hr as [shape kw self Hinit | self self' val _ IH Hset
                  | self self' b _ IH Hset].
  - destruct (init_state _ _ Hinit) as (sh & x & _ & _ & Hc & -> & _).
    cbn [attributes].
    destruct (flag_truth (Kwargs.boolean kw)) eqn:Hb,
             (flag_truth (Kwargs.integer kw)) eqn:Hi;
      cbn [andb] in Hc; try (left; exact Hc).
    right. cbn [attributes_of boolean integer]. unfold bool_of.
    split; [exact Hb|]. split; [exact Hi|].
    rewrite count_true_sum in Hc |- *.
    cbn [attributes_of nonneg nonpos pos neg complex imag symmetric diag
           PSD NSD hermitian boolean integer sparsity bounds] in Hc |- *.
    unfold bool_of in *. rewrite Hb, Hi in *. cbn [Z.b2z] in *.
    pose proof (b2z_range (Kwargs.nonneg kw)).
    pose proof (b2z_range (Kwargs.nonpos kw)).
    pose proof (b2z_range (Kwargs.pos kw)).
    pose proof (b2z_range (Kwargs.neg kw)).
    pose proof (b2z_range (Kwargs.complex kw)).
    pose proof (b2z_range (Kwargs.imag kw)).
    pose proof (b2z_range (Kwargs.symmetric kw)).
    pose proof (b2z_range (Kwargs.diag kw)).
    pose proof (b2z_range (Kwargs.PSD kw)).
    pose proof (b2z_range (Kwargs.NSD kw)).
    pose proof (b2z_range (Kwargs.hermitian kw)).
    pose proof (b2z_range (truth (PySparsity (Kwargs.sparsity kw)))).
    pose proof (b2z_range (truth (PyBounds (Kwargs.bounds kw)))).
    lia.
  - apply value_setter_result in Hset. destruct Hset as [-> _]. exact IH.
  - apply bounds_setter_result in Hset. destruct Hset as [x ->]. exact IH.
Qed.

(** the ranges of the summands of the count *)
Lemma count_ranges (d : attributes_dict) :
  (0 <= Z.b2z (nonneg d) <= 1 /\ 0 <= Z.b2z (nonpos d) <= 1
   /\ 0 <= Z.b2z (pos d) <= 1 /\ 0 <= Z.b2z (neg d) <= 1
   /\ 0 <= Z.b2z (complex d) <= 1 /\ 0 <= Z.b2z (imag d) <= 1
   /\ 0 <= Z.b2z (symmetric d) <= 1 /\ 0 <= Z.b2z (diag d) <= 1
   /\ 0 <= Z.b2z (PSD d) <= 1 /\ 0 <= Z.b2z (NSD d) <= 1
   /\ 0 <= Z.b2z (hermitian d) <= 1 /\ 0 <= Z.b2z (boolean d) <= 1
   /\ 0 <= Z.b2z (flag_truth (integer d)) <= 1
   /\ 0 <= Z.b2z (truth (PySparsity (sparsity d))) <= 1
   /\ 0 <= Z.b2z (truth (PyBounds (bounds d))) <= 1)%Z.
Proof. repeat split; apply b2z_range. Qed.

(** X9.  In every state of a leaf at most one entry of the attributes
    dictionary is true, [boolean] with [integer] excepted, where there
    are two; so [nonneg] and [nonpos] are never both set, and the rule
    of [project] for that pair applies to no leaf. *)
Theorem reachable_one_attribute (self : Leaf) :
  reachable self ->
  let d := attributes self in
  ((count_true d <= 1)%Z
   \/ (boolean d = true /\ flag_truth (integer d) = true
       /\ count_true d = 2%Z))
  /\ nonpos d && nonneg d = false
  /\ rule_of d <> RZero.
Proof.
  intros Hr. cbv zeta.
  pose proof (reachable_count Hr) as H.
  split; [exact H|].
  assert (Hz : nonpos (attributes self) && nonneg (attributes self) = false).
  { rewrite count_true_sum in H.
    pose proof (count_ranges (attributes self)) as R.
    destruct (nonpos (attributes self)) eqn:Hnp,
             (nonneg (attributes self)) eqn:Hnn; try reflexivity.
    cbn [Z.b2z] in H, R.
    destruct H as [H | (Hb & Hi & H)]; [lia|].
    rewrite Hb, Hi in H, R. cbn [Z.b2z] in H, R. lia. }
  split; [exact Hz|].
  unfold rule_of. rewrite Hz.
  repeat match goal with
         | |- context [if ?c then _ else _] => destruct c
         end; discriminate.
Qed.



End Invariants.

(** the leaves of the examples are states of a leaf *)
Lemma boolean_leaf_reachable :
  reachable (settings := cvxpy_settings) (linalg := diagonal_linalg) boolean_leaf.
Proof.
  apply reach_init with (shape := ShapeInt 2)
                        (kw := with_boolean (IsBool true) Kwargs.default).
  reflexivity.
Qed.

Lemma nonneg_leaf_reachable :
  reachable (settings := cvxpy_settings) (linalg := diagonal_linalg) nonneg_leaf.
Proof.
  apply reach_init with (shape := ShapeInt 2)
                        (kw := with_nonneg Kwargs.default).
  reflexivity.
Qed.




Lemma reachable_one_attribute_witness :
  reachable (settings := cvxpy_settings) (linalg := diagonal_linalg) boolean_leaf
  /\ ((count_true (attributes boolean_leaf) <= 1)%Z
      \/ (boolean (attributes boolean_leaf) = true
          /\ flag_truth (integer (attributes boolean_leaf)) = true
          /\ count_true (attributes boolean_leaf) = 2%Z))
  /\ nonpos (attributes boolean_leaf) && nonneg (attributes boolean_leaf) = false
  /\ rule_of (attributes boolean_leaf) <> RZero.
Proof.
  split; [exact boolean_leaf_reachable|].
  exact (reachable_one_attribute boolean_leaf_reachable).
Defined.


End LeafExtra.
(* ================================================================== *)
(** ** The projection onto the domain of a leaf, and validation by it *)

Module ProjectExtra.
Import Num NumPy Leaf LeafSpec LeafStates NumSpec NumFacts.
Import Instances StateInstances LeafFacts LeafExtra.

Section Projections.
Context {linalg : LinearAlgebra}.

(** an elementwise rule gives each entry of the projection from the
    same entry of the argument *)
Lemma project_elementwise (self : Leaf) (v : value_t) :
  elementwise_rule (rule_of (attributes self)) = true ->
  shape (array_of (project self v)) = shape (array_of v)
  /\ is_sparse (project self v) = is_sparse v
  /\ forall i j, item (array_of (project self v)) i j
                 = project_entry self (item (array_of v)) i j.
Proof.
  unfold project_entry, rule_of, project, pre. cbv zeta. cbn [existsb].
  destruct (nonpos (attributes self) && nonneg (attributes self)).
  { intros _. destruct v, (is_complex self); cbn; auto. }
  destruct (nonpos (attributes self) || neg (attributes self)).
  { intros _. destruct v, (is_complex self); cbn; auto. }
  destruct (nonneg (attributes self) || pos (attributes self)).
  { intros _. destruct v, (is_complex self); cbn; auto. }
  destruct (imag (attributes self)).
  { intros _. destruct v, (is_complex self); cbn; auto. }
  destruct (complex (attributes self)).
  { intros _. destruct v, (is_complex self); cbn; auto. }
  destruct (boolean (attributes self)).
  { intros _. destruct v, (is_complex self); cbn; auto. }
  destruct (flag_truth (integer (attributes self))).
  { intros _. destruct v, (is_complex self); cbn; auto. }
  destruct (diag (attributes self)); [discriminate|].
  destruct (hermitian (attributes self)); [discriminate|].
  destruct (symmetric (attributes self)); [discriminate|].
  destruct (PSD (attributes self)); [discriminate|].
  destruct (NSD (attributes self)); [discriminate|].
  intros _. destruct v, (is_complex self); cbn; auto.
Qed.







Lemma maximum_not_below x : ltb (maximum x zero) zero = false.
Proof.
  destruct x as [a| | |]; try reflexivity.
  unfold maximum, zero, ltb. destruct (Qltb a 0) eqn:E; [|exact E].
  apply Qltb_irrefl.
Qed.

Lemma minimum_not_above x : ltb zero (minimum x zero) = false.
Proof.
  destruct x as [a| | |]; try reflexivity.
  unfold minimum, zero, ltb. destruct (Qltb 0 a) eqn:E; [|exact E].
  apply Qltb_irrefl.
Qed.

Lemma boolean_values x :
  isnan x = false ->
  round (clip x zero one) = zero \/ round (clip x zero one) = one.
Proof.
  destruct x as [a| | |]; try discriminate; intros _;
    [|right; reflexivity | left; reflexivity].
  destruct (clip_unit a) as (c & -> & H0 & H1). cbn [round].
  destruct (Qround_half_even_unit H0 H1) as [-> | ->]; [left | right];
    reflexivity.
Qed.

(** what the rules of the signs and of the booleans give *)
Lemma project_rule_domain (self : Leaf) (v : value_t) (i j : nat) :
  let p := item (array_of (project self v)) i j in
  (rule_of (attributes self) = RNonneg -> ltb (re p) zero = false)
  /\ (rule_of (attributes self) = RNonpos -> ltb zero (re p) = false)
  /\ (rule_of (attributes self) = RBoolean ->
      isnan (re (item (array_of v) i j)) = false ->
      re p = zero \/ re p = one).
Proof.
  cbv zeta.
  repeat split; intros Hr;
    (assert (Hel : elementwise_rule (rule_of (attributes self)) = true)
      by (rewrite Hr; reflexivity));
    destruct (project_elementwise self v Hel) as (_ & _ & Hi);
    rewrite Hi; unfold project_entry; rewrite Hr; unfold on_real; cbn [re].
  - apply maximum_not_below.
  - apply minimum_not_above.
  - intros Hn. apply boolean_values.
    unfold pre. destruct (negb (is_complex self)); exact Hn.
Qed.

Lemma project_diag_sparse (self : Leaf) (v : value_t) :
  rule_of (attributes self) = RDiag -> is_sparse (project self v) = true.
Proof.
  unfold rule_of, project. cbv zeta.
  destruct (nonpos (attributes self) && nonneg (attributes self)); [discriminate|].
  destruct (nonpos (attributes self) || neg (attributes self)); [discriminate|].
  destruct (nonneg (attributes self) || pos (attributes self)); [discriminate|].
  destruct (imag (attributes self)); [discriminate|].
  destruct (complex (attributes self)); [discriminate|].
  destruct (boolean (attributes self)); [discriminate|].
  destruct (flag_truth (integer (attributes self))); [discriminate|].
  destruct (diag (attributes self)); [reflexivity|].
  destruct (hermitian (attributes self)); [discriminate|].
  destruct (symmetric (attributes self)); [discriminate|].
  destruct (PSD (attributes self)); [discriminate|].
  destruct (NSD (attributes self)); discriminate.
Qed.

Lemma add_comm_equiv x y : nequiv (add x y) (add y x).
Proof.
  destruct x, y; simpl; auto. apply Qplus_comm.
Qed.

Lemma half_equiv x y : nequiv x y -> nequiv (half x) (half y).
Proof.
  destruct x, y; simpl; auto. intros H. now rewrite H.
Qed.

Lemma half_opp x : nequiv (half (opp x)) (opp (half x)).
Proof.
  destruct x; simpl; auto. field.
Qed.

Lemma opp_add_swap x y : nequiv (add x (opp y)) (opp (add y (opp x))).
Proof.
  destruct x, y; simpl; auto. ring.
Qed.

(** X13.  The matrix rules of [project], on a value of the shape of the
    leaf: for a diagonal leaf the result is sparse, zero off the diagonal
    and the argument on it; for a symmetric leaf the result equals its
    transpose, and for a hermitian leaf its conjugate transpose. *)
Theorem project_matrix_structure (self : Leaf) (v : value_t) :
  PSD (attributes self) = false -> NSD (attributes self) = false ->
  square_when_matrix self ->
  shape (array_of v) = _shape self ->
  let p := array_of (project self v) in
  (rule_of (attributes self) = RDiag ->
   is_sparse (project self v) = true
   /\ (forall i j, i <> j -> item p i j = of_real zero)
   /\ (forall i, item p i i = pre self (item (array_of v) i i)))
  /\ (rule_of (attributes self) = RSymmetric ->
      forall i j, nequiv (re (item p i j)) (re (item p j i))
                  /\ nequiv (im (item p i j)) (im (item p j i)))
  /\ (rule_of (attributes self) = RHermitian ->
      forall i j, nequiv (re (item p i j)) (re (item p j i))
                  /\ nequiv (im (item p i j)) (opp (im (item p j i)))).
Proof.
  intros HP HN Hsq Hsh. cbv zeta.
  destruct (project_entries v HP HN Hsq Hsh) as [_ Hit].
  split; [|split]; intros Hr.
  - split; [now apply project_diag_sparse|].
    split.
    + intros i j Hne. rewrite Hit. unfold project_entry. rewrite Hr.
      apply Nat.eqb_neq in Hne. now rewrite Hne.
    + intros i. rewrite Hit. unfold project_entry. rewrite Hr.
      now rewrite Nat.eqb_refl.
  - intros i j. rewrite !Hit. unfold project_entry. rewrite Hr.
    unfold chalf, cadd. cbn [re im].
    split; apply half_equiv, add_comm_equiv.
  - intros i j. rewrite !Hit. unfold project_entry. rewrite Hr.
    unfold chalf, cadd, conj. cbn [re im]. split.
    + apply half_equiv, add_comm_equiv.
    + eapply nequiv_trans; [|apply half_opp].
      apply half_equiv, opp_add_swap.
Qed.

Local Open Scope Q_scope.

Lemma square_le (a t : Q) : 0 <= t -> a < 0 ->
  Qle_bool ((a + - 0) * (a + - 0) + (0 + - 0) * (0 + - 0)) (t * t)
  = Qle_bool (- t) a.
Proof.
  intros Ht Ha. apply eq_true_iff_eq. rewrite !Qle_bool_iff. split; intros H; nra.
Qed.

Lemma nonneg_entry_close (tol : Q) (r : num) :
  0 <= tol ->
  isclose0 tol (csub (C r zero) (on_real (fun x => maximum x zero) (C r zero)))
  = nonneg_within tol (C r zero).
Proof.
  intros Ht. unfold isclose0, cabs_le, nonneg_within, on_real, csub.
  cbn [re im]. destruct r as [a| | |]; try reflexivity.
  unfold maximum, zero, ltb. destruct (Qltb a 0) eqn:E; cbn [sub add opp].
  - apply Qle_bool_iff in Ht. rewrite Ht. cbn [andb].
    apply square_le; [now apply Qle_bool_iff|].
    unfold Qltb in E. apply negb_true_iff in E.
    destruct (Qlt_le_dec a 0) as [H | H]; [exact H|].
    apply Qle_bool_iff in H. congruence.
  - assert (Ha : 0 <= a).
    { unfold Qltb in E. apply negb_false_iff in E. now apply Qle_bool_iff. }
    transitivity true.
    + apply andb_true_iff. split; apply Qle_bool_iff; [exact Ht|]. nra.
    + symmetry. apply Qle_bool_iff. lra.
Qed.
Local Close Scope Q_scope.

Section Acceptance.
Context {settings : Settings}.

Lemma forallb_map_ext {A B} (f : B -> bool) (g : A -> bool) (h : A -> B) l :
  (forall x, In x l -> f (h x) = g x) ->
  forallb f (map h l) = forallb g l.
Proof.
  induction l as [|x l IH]; simpl; intros H; [reflexivity|].
  rewrite (H x), IH; auto.
Qed.

(** a leaf whose one attribute is [nonneg] *)
Lemma nonneg_alone (self : Leaf) :
  reachable self -> nonneg (attributes self) = true ->
  nonpos (attributes self) = false /\ neg (attributes self) = false
  /\ PSD (attributes self) = false /\ NSD (attributes self) = false.
Proof.
  intros Hr Hnn. pose proof (reachable_count Hr) as H.
  rewrite count_true_sum in H. pose proof (count_ranges (attributes self)) as R.
  rewrite Hnn in H, R. cbn [Z.b2z] in H, R.
  repeat split;
    match goal with
    | |- ?b = false =>
        destruct b eqn:E; [exfalso|reflexivity];
        rewrite ?E in H, R; cbn [Z.b2z] in H, R;
        destruct H as [H | (Hb & Hi & H)];
        [lia | rewrite ?Hb, ?Hi in H, R; cbn [Z.b2z] in H, R; lia]
    end.
Qed.

(** the rule of [project] for the leaves that report a sign, and for the
    boolean ones *)
Lemma sign_rules (self : Leaf) :
  reachable self ->
  (is_nonneg self = true ->
   rule_of (attributes self) = RNonneg \/ rule_of (attributes self) = RBoolean)
  /\ (is_nonpos self = true -> rule_of (attributes self) = RNonpos)
  /\ (boolean (attributes self) = true ->
      rule_of (attributes self) = RBoolean).
Proof.
  intros Hr. pose proof (reachable_count Hr) as H.
  rewrite count_true_sum in H.
  pose proof (count_ranges (attributes self)) as R.
  unfold is_nonneg, is_nonpos, rule_of. revert H R.
  destruct (nonneg (attributes self)), (nonpos (attributes self)),
    (pos (attributes self)), (neg (attributes self)),
    (imag (attributes self)), (complex (attributes self)),
    (boolean (attributes self));
    cbn [Z.b2z orb andb]; intros H R;
    (split; [|split]; intros Hs; try discriminate Hs; auto);
    exfalso; destruct H as [H | (Hb & Hi & H)]; try discriminate Hb;
    try rewrite Hi in H, R; cbn [Z.b2z] in H, R; lia.
Qed.

Lemma boolean_not_below x : ltb (round (clip x zero one)) zero = false.
Proof.
  destruct x as [a| | |]; try reflexivity.
  destruct (@boolean_values (Fin a) eq_refl) as [-> | ->]; reflexivity.
Qed.

(** X12.  The sign that a leaf reports holds of what it projects to: in
    every state of a leaf that reports to be nonnegative, no entry of a
    projection is below zero; of one that reports to be nonpositive, none
    is above zero; and the entries of a projection by a boolean leaf are
    zero or one, where the entry of the argument is not [NaN]. *)
Theorem project_in_domain (self : Leaf) (v : value_t) (i j : nat) :
  reachable self ->
  let p := re (item (array_of (project self v)) i j) in
  (is_nonneg self = true -> ltb p zero = false)
  /\ (is_nonpos self = true -> ltb zero p = false)
  /\ (boolean (attributes self) = true ->
      isnan (re (item (array_of v) i j)) = false ->
      p = zero \/ p = one).
Proof.
  intros Hr. cbv zeta. destruct (sign_rules Hr) as (Hnn & Hnp & Hb).
  destruct (project_rule_domain self v i j) as (D1 & D2 & D3).
  split; [|split]; intros Hs.
  - destruct (Hnn Hs) as [Hrule | Hrule]; [exact (D1 Hrule)|].
    assert (Hel : elementwise_rule (rule_of (attributes self)) = true)
      by (rewrite Hrule; reflexivity).
    destruct (project_elementwise self v Hel) as (_ & _ & Hi).
    rewrite Hi. unfold project_entry. rewrite Hrule. unfold on_real.
    cbn [re]. apply boolean_not_below.
  - exact (D2 (Hnp Hs)).
  - exact (D3 (Hb Hs)).
Qed.

(** X14.  A nonnegative leaf accepts a real dense value of its shape
    exactly when every entry is a finite number not below
    [-GENERAL_PROJECTION_TOL], and otherwise raises the error that the
    value must be nonnegative. *)
Theorem nonneg_leaf_accepts (self : Leaf) (a : ndarray cnum) :
  reachable self ->
  nonneg (attributes self) = true ->
  (0 <= GENERAL_PROJECTION_TOL)%Q ->
  shape a = _shape self ->
  real_value (Dense a) ->
  _validate_value self (Some (Dense a))
  = if forallb (nonneg_within GENERAL_PROJECTION_TOL) (entries a)
    then Ok (Some (Dense a))
    else Raise (ValueMustBe "nonnegative").
Proof.
  intros Hr Hnn Htol Hsh Hreal.
  destruct (nonneg_alone Hr Hnn) as (Hnp & Hng & HP & HN).
  unfold _validate_value, convert, intf_shape. cbn [array_of].
  rewrite Hsh.
  assert (Heqb : shape_eqb (_shape self) (_shape self) = true).
  { unfold shape_eqb. destruct (list_eq_dec Nat.eq_dec _ _); congruence. }
  rewrite Heqb. cbn [negb raise_if rbind]. rewrite HP, HN. cbn [orb].
  assert (Hrule : rule_of (attributes self) = RNonneg).
  { unfold rule_of. now rewrite Hnp, Hng, Hnn. }
  assert (Hel : elementwise_rule (rule_of (attributes self)) = true)
    by (rewrite Hrule; reflexivity).
  destruct (project_elementwise self (Dense a) Hel) as (Hps & Hpsp & Hpi).
  cbn [array_of is_sparse] in Hps, Hpsp, Hpi.
  unfold vsub. cbn [is_sparse array_of andb].
  unfold allclose0, entries at 1. cbn [azip shape item].
  assert (Hclose :
    forallb (isclose0 GENERAL_PROJECTION_TOL)
      (map (fun p => csub (item a (fst p) (snd p))
                          (item (array_of (project self (Dense a))) (fst p) (snd p)))
           (indices (shape a)))
    = forallb (nonneg_within GENERAL_PROJECTION_TOL) (entries a)).
  { unfold entries. rewrite forallb_map_ext with
      (g := fun p => nonneg_within GENERAL_PROJECTION_TOL (item a (fst p) (snd p))).
    - symmetry. apply forallb_map_ext. reflexivity.
    - intros p Hp. rewrite Hpi. unfold project_entry. rewrite Hrule.
      specialize (Hreal p Hp). cbn [array_of] in Hreal.
      destruct (item a (fst p) (snd p)) as [r i] eqn:E. cbn [im] in Hreal.
      subst i.
      assert (Hpre : pre self (C r zero) = C r zero).
      { unfold pre. destruct (negb (is_complex self)); reflexivity. }
      rewrite Hpre. now apply nonneg_entry_close. }
  rewrite Hclose.
  assert (Hstr : attr_str (attributes self) = "nonnegative"%string)
    by (unfold attr_str; now rewrite Hnn).
  rewrite Hstr.
  destruct (forallb (nonneg_within GENERAL_PROJECTION_TOL) (entries a));
    reflexivity.
Qed.
End Acceptance.
End Projections.


Lemma project_in_domain_witness :
  (is_nonneg boolean_leaf = true ->
   ltb (re (item (array_of (project (linalg := diagonal_linalg) boolean_leaf
                              (Dense (vector [(3 # 10)%Q; 2%Q])))) 1 0))
       zero = false)
  /\ (is_nonpos boolean_leaf = true ->
      ltb zero
          (re (item (array_of (project (linalg := diagonal_linalg) boolean_leaf
                                 (Dense (vector [(3 # 10)%Q; 2%Q])))) 1 0))
      = false)
  /\ (boolean (attributes boolean_leaf) = true ->
      isnan (re (item (array_of (Dense (vector [(3 # 10)%Q; 2%Q]))) 1 0))
      = false ->
      re (item (array_of (project (linalg := diagonal_linalg) boolean_leaf
                            (Dense (vector [(3 # 10)%Q; 2%Q])))) 1 0) = zero
      \/ re (item (array_of (project (linalg := diagonal_linalg) boolean_leaf
                               (Dense (vector [(3 # 10)%Q; 2%Q])))) 1 0) = one).
Proof.
  apply (@project_in_domain diagonal_linalg cvxpy_settings boolean_leaf).
  exact boolean_leaf_reachable.
Defined.

Lemma project_matrix_structure_witness :
  is_sparse (project (linalg := diagonal_linalg) diag_leaf matrix_1234) = true
  /\ (forall i j, i <> j ->
        item (array_of (project (linalg := diagonal_linalg) diag_leaf
                          matrix_1234)) i j = of_real zero)
  /\ (forall i,
        item (array_of (project (linalg := diagonal_linalg) diag_leaf
                          matrix_1234)) i i
        = pre diag_leaf (item (array_of matrix_1234) i i)).
Proof.
  apply (@project_matrix_structure diagonal_linalg diag_leaf matrix_1234);
    try reflexivity.
  intros _. reflexivity.
Defined.

Lemma nonneg_leaf_accepts_witness :
  _validate_value (settings := cvxpy_settings) (linalg := diagonal_linalg)
    nonneg_leaf (Some (Dense (vector [1%Q; (- (1 # 100000000000))%Q])))
  = if forallb (nonneg_within
                  (GENERAL_PROJECTION_TOL (Settings := cvxpy_settings)))
         (entries (vector [1%Q; (- (1 # 100000000000))%Q]))
    then Ok (Some (Dense (vector [1%Q; (- (1 # 100000000000))%Q])))
    else Raise (ValueMustBe "nonnegative").
Proof.
  apply (@nonneg_leaf_accepts diagonal_linalg cvxpy_settings).
  - exact nonneg_leaf_reachable.
  - reflexivity.
  - unfold Qle; simpl; lia.
  - reflexivity.
  - intros p _. reflexivity.
Defined.

End ProjectExtra.
(* ================================================================== *)
(** ** What the Gershgorin check certifies, and the other utilities *)

Module LinalgExtra.
Import Num NumPy Linalg Quadratic Instances LinalgFacts.

Local Open Scope Q_scope.


















Local Close Scope Q_scope.

(** *** The tolerance of the check, and the outcomes of the certificate *)

Lemma Qltb_true (a b : Q) : Qltb a b = true <-> (a < b)%Q.
Proof.
  unfold Qltb. rewrite negb_true_iff. split; intros H.
  - apply Qnot_le_lt. intros L. apply Qle_bool_iff in L. congruence.
  - destruct (Qle_bool b a) eqn:E; [|reflexivity].
    apply Qle_bool_iff in E. exfalso. now apply (Qlt_not_le a b).
Qed.

Lemma below_antitone (t t' : Q) (x : num) :
  (t <= t')%Q -> below (Fin t') x = true -> below (Fin t) x = true.
Proof.
  intros Ht. unfold below. destruct x as [q| | |]; cbn; try congruence.
  rewrite !Qltb_true. lra.
Qed.

Lemma above_monotone (t t' : Q) (x : num) :
  (t <= t')%Q -> geb x (opp (Fin t)) = true -> geb x (opp (Fin t')) = true.
Proof.
  intros Ht. destruct x as [q| | |]; cbn; try congruence.
  rewrite !Qle_bool_iff. lra.
Qed.

Lemma gershgorin_code_monotone (A : ndarray num) (n : nat) (t t' : Q) :
  (t <= t')%Q ->
  gershgorin_code A n (Fin t) = true -> gershgorin_code A n (Fin t') = true.
Proof.
  intros Ht. unfold gershgorin_code.
  destruct (existsb (fun i => below (Fin t) (item A i i)) (seq 0 n)) eqn:E;
    [discriminate|].
  intros H.
  assert (E' : existsb (fun i => below (Fin t') (item A i i)) (seq 0 n) = false).
  { destruct (existsb (fun i => below (Fin t') (item A i i)) (seq 0 n)) eqn:E';
      [|reflexivity].
    apply existsb_exists in E'. destruct E' as (i & Hi & Hb).
    rewrite <- E. symmetry. apply existsb_exists. exists i. split; [exact Hi|].
    now apply below_antitone with (t' := t'). }
  rewrite E'. rewrite forallb_forall in *. intros i Hi.
  apply above_monotone with (t := t); auto.
Qed.

(** X16.  The Gershgorin check is monotone in the tolerance: a square
    matrix, of whatever entries, that passes at [tol] passes at every
    larger tolerance. *)
Theorem gershgorin_tol_monotone (A : ndarray num) (n : nat) (t t' : Q) :
  shape A = [n; n] ->
  (t <= t')%Q ->
  (gershgorin_psd_check (NdArray A) (Fin t) = Return true ->
   gershgorin_psd_check (NdArray A) (Fin t') = Return true)
  /\ (gershgorin_psd_check (SpMatrix A) (Fin t) = Return true ->
      gershgorin_psd_check (SpMatrix A) (Fin t') = Return true).
Proof.
  intros Hsh Ht.
  destruct (@gershgorin_square A n (Fin t) Hsh) as [E1 E2].
  destruct (@gershgorin_square A n (Fin t') Hsh) as [E1' E2'].
  rewrite E1, E2, E1', E2'.
  split; intros H; injection H as H; f_equal;
    now apply gershgorin_code_monotone with (t := t).
Qed.

Lemma gershgorin_tol_monotone_witness :
  (gershgorin_psd_check (NdArray laplacian2) (Fin 0) = Return true ->
   gershgorin_psd_check (NdArray laplacian2) (Fin 1) = Return true)
  /\ (gershgorin_psd_check (SpMatrix laplacian2) (Fin 0) = Return true ->
      gershgorin_psd_check (SpMatrix laplacian2) (Fin 1) = Return true).
Proof.
  apply (@gershgorin_tol_monotone laplacian2 2 0%Q 1%Q).
  - reflexivity.
  - unfold Qle; simpl; lia.
Defined.


Section Psd.
Context {arpack : Arpack}.

End Psd.

Lemma cabs_gt_antitone (z : cnum) (t t' : Q) :
  (t <= t')%Q -> cabs_gt z t' = true -> cabs_gt z t = true.
Proof.
  intros Ht. unfold cabs_gt.
  destruct (re z) as [a| | |], (im z) as [b| | |]; try congruence.
  rewrite !orb_true_iff, !Qltb_true. intros [H | H]; [left; lra|].
  destruct (Qlt_le_dec t 0) as [Hn | Hp]; [now left|right].
  apply Qle_lt_trans with (t' * t')%Q; [nra|exact H].
Qed.

Lemma filter_length_mono {A} (f g : A -> bool) (l : list A) :
  (forall x, In x l -> f x = true -> g x = true) ->
  List.length (filter f l) <= List.length (filter g l).
Proof.
  induction l as [|x l IH]; intros H; cbn [filter]; [lia|].
  assert (IH' : List.length (filter f l) <= List.length (filter g l))
    by (apply IH; intros; apply H; simpl; auto).
  destruct (f x) eqn:E.
  - rewrite (H x (or_introl eq_refl) E). simpl. lia.
  - destruct (g x); simpl; lia.
Qed.

Lemma count_rows_above_antitone (R : ndarray cnum) (t t' : Q) :
  (t <= t')%Q -> count_rows_above R t' <= count_rows_above R t.
Proof.
  intros Ht. unfold count_rows_above. apply filter_length_mono.
  intros i _ H. apply existsb_exists in H. destruct H as (j & Hj & Hz).
  apply existsb_exists. exists j. split; [exact Hj|].
  now apply cabs_gt_antitone with (t' := t').
Qed.

(** X18.  With the shapes of the economic factorization, [orth(V, tol)]
    has the rows of [V] and at most as many columns as [V] has rows or
    columns, and a larger tolerance never gives more columns. *)
Theorem orth_columns (provider : QR) (V : ndarray cnum) (n m : nat) (t t' : Q) :
  economic provider ->
  shape V = [n; m] ->
  (t <= t')%Q ->
  nrows (orth V t) = n
  /\ ncols (orth V t) <= Nat.min n m
  /\ ncols (orth V t') <= ncols (orth V t).
Proof.
  intros Heco HV Ht. unfold nrows, ncols. rewrite !orth_shape. cbn [nth].
  destruct (Heco V n m HV) as [_ HR].
  split; [unfold nrows; now rewrite HV|]. split.
  - etransitivity; [apply count_rows_above_le|].
    unfold nrows. now rewrite HR.
  - now apply count_rows_above_antitone.
Qed.

Lemma orth_columns_witness :
  nrows (orth (provider := triangular_qr) (eye 2) 0%Q) = 2
  /\ ncols (orth (provider := triangular_qr) (eye 2) 0%Q) <= Nat.min 2 2
  /\ ncols (orth (provider := triangular_qr) (eye 2) 2%Q)
     <= ncols (orth (provider := triangular_qr) (eye 2) 0%Q).
Proof.
  apply (@orth_columns triangular_qr (eye 2) 2 2 0%Q 2%Q).
  - exact triangular_qr_economic.
  - reflexivity.
  - unfold Qle; simpl; lia.
Defined.

End LinalgExtra.
